(** * A chat relay on Workers AI: the Worker (src/index.ts) and the browser
    client (public/chat.js), embedded as pure functions over explicit state.

    The JavaScript values the two programs handle are JSON data, so the file
    starts with JavaScript strings, JSON values, [JSON.parse] and
    [JSON.stringify]; the Worker and the client follow, then the theorems. *)

From Stdlib Require Import NArith ZArith String Ascii List Bool Lia.
From stdpp Require Import base option list.
Import ListNotations.

#[local] Set Warnings "-register-all".

(** ** JavaScript strings

    A JavaScript string is a sequence of UTF-16 code units. *)

Abbreviation jsstring := (list N).

(** The JavaScript string of an ASCII literal, and the code unit of an ASCII
    character. *)
Definition str (s : string) : jsstring :=
  map N_of_ascii (list_ascii_of_string s).

Definition ch (a : ascii) : N := N_of_ascii a.
Arguments ch : simpl never.

(** The code unit of the double quote. *)
Definition dquote : N := 34%N.

Definition streq (a b : jsstring) : bool := bool_decide (a = b).

Fixpoint startsWith (s p : jsstring) {struct p} : bool :=
  match p, s with
  | [], _ => true
  | _ :: _, [] => false
  | c :: p', d :: s' => (c =? d)%N && startsWith s' p'
  end.

(** White space and line terminators of ECMAScript, as [String.prototype.trim]
    removes them. *)
Definition is_trim_space (c : N) : bool :=
  ((9 <=? c) && (c <=? 13) || (c =? 32) || (c =? 160) || (c =? 5760)
   || (8192 <=? c) && (c <=? 8202) || (c =? 8232) || (c =? 8233)
   || (c =? 8239) || (c =? 8287) || (c =? 12288) || (c =? 65279))%N.

Fixpoint trimStart (s : jsstring) : jsstring :=
  match s with
  | c :: s' => if is_trim_space c then trimStart s' else s
  | [] => []
  end.

Definition trim (s : jsstring) : jsstring :=
  rev (trimStart (rev (trimStart s))).

(** ** Completion records: a value or a thrown exception *)

(** What is thrown: by [JSON.parse], by a property read or a call that the
    value does not allow, or by the inference API. *)
Inductive exn := SyntaxError | TypeError | InferenceError.

Inductive result (A : Type) :=
| Ok (a : A)
| Throw (e : exn).
Arguments Ok {A} a.
Arguments Throw {A} e.

Definition bind {A B} (m : result A) (k : A -> result B) : result B :=
  match m with
  | Ok a => k a
  | Throw e => Throw e
  end.

Notation "'let*' x ':=' m 'in' k" := (bind m (fun x => k))
  (at level 10, x name, m at level 100, k at level 200).

(** [try { m } catch { h }] where the handler ignores the exception. *)
Definition try_catch {A} (m : result A) (h : A) : A :=
  match m with
  | Ok a => a
  | Throw _ => h
  end.

(** ** JSON values

    The values [JSON.parse] builds. A number is kept as the literal it was
    read from: the programs never compute with numbers, they only test them
    for truth ([truthy]), write them back ([JSON_stringify]) and put them
    in a paragraph of the page, where a number always has a string. *)

Inductive value :=
| VNull
| VBool (b : bool)
| VNum (literal : jsstring)
| VStr (s : jsstring)
| VArr (items : list value)
| VObj (props : list (jsstring * value)).

Fixpoint assoc (k : jsstring) (props : list (jsstring * value)) : option value :=
  match props with
  | [] => None
  | (k', v) :: rest => if streq k k' then Some v else assoc k rest
  end.

(** [v[k]] for a property name [k] that no built-in prototype defines (this
    holds for every name the programs read: messages, role, response,
    result). Reading a property of [null] throws; [None] is [undefined]. *)
Definition get (v : value) (k : jsstring) : result (option value) :=
  match v with
  | VNull => Throw TypeError
  | VObj props => Ok (assoc k props)
  | _ => Ok None
  end.

(** ToBoolean on a number read from the literal [lit]: the double nearest to
    the literal is zero when the mantissa is zero or when the magnitude is at
    most 2^-1075, half of the smallest positive double. *)
Definition is_digit (c : N) : bool := ((48 <=? c) && (c <=? 57))%N.

Fixpoint digits (s : jsstring) : jsstring * jsstring :=
  match s with
  | c :: s' =>
      if is_digit c then let (d, r) := digits s' in (c :: d, r) else ([], s)
  | [] => ([], [])
  end.

Definition digits_value (d : jsstring) : N :=
  fold_left (fun a c => 10 * a + (c - 48))%N d 0%N.

(** The magnitude of a number literal, as mantissa and decimal exponent. *)
Definition decimal_of_literal (lit : jsstring) : N * Z :=
  let body :=
    match lit with
    | c :: r => if (c =? ch "-")%N then r else lit
    | [] => []
    end in
  let (i, r1) := digits body in
  let (f, r2) :=
    match r1 with
    | c :: r => if (c =? ch ".")%N then digits r else ([], r1)
    | [] => ([], [])
    end in
  let e :=
    match r2 with
    | _ :: g :: r =>
        if (g =? ch "-")%N then (- Z.of_N (digits_value r))%Z
        else if (g =? ch "+")%N then Z.of_N (digits_value r)
        else Z.of_N (digits_value (g :: r))
    | _ => 0%Z
    end in
  (digits_value (i ++ f), (e - Z.of_nat (length f))%Z).

Definition rounds_to_zero (lit : jsstring) : bool :=
  let (m, e) := decimal_of_literal lit in
  (m =? 0)%N || ((e <? 0)%Z && (m * 2 ^ 1075 <=? 10 ^ Z.to_N (- e))%N).

(** ToBoolean, the test of [if (v)]. *)
Definition truthy (v : value) : bool :=
  match v with
  | VNull => false
  | VBool b => b
  | VNum lit => negb (rounds_to_zero lit)
  | VStr s => negb (bool_decide (s = []))
  | VArr _ | VObj _ => true
  end.

(** ToString, as a template literal applies it to [v], has no result and
    throws a TypeError for some values. A parsed object has no function among
    its properties, so an own property [toString] hides the method of
    [Object.prototype], and the [valueOf] that is tried next gives back the
    object itself: no primitive is reached. An array is joined from the
    conversions of its elements ([null] counts as the empty string), and
    throws when one of them does. Every other value has a string. *)
Fixpoint to_string_throws (v : value) : bool :=
  match v with
  | VObj props =>
      match assoc (str "toString") props with Some _ => true | None => false end
  | VArr items => existsb to_string_throws items
  | VNull | VBool _ | VNum _ | VStr _ => false
  end.

(** ** UTF-8 decoding

    [TextDecoder.decode] and the body reader of [request.json()] decode bytes
    with the UTF-8 decoder of the Encoding Standard in replacement mode: a
    malformed sequence yields U+FFFD and decoding never fails. A leading byte
    order mark is dropped. *)

Inductive utf8_state :=
| Idle
| Pending (cp : N) (remaining : nat) (lower upper : N).

Definition utf8_lead (b : N) : list N * utf8_state :=
  if (b <=? 0x7F)%N then ([b], Idle)
  else if ((0xC2 <=? b) && (b <=? 0xDF))%N then
    ([], Pending (N.land b 0x1F) 1 0x80 0xBF)
  else if ((0xE0 <=? b) && (b <=? 0xEF))%N then
    ([], Pending (N.land b 0xF) 2
           (if (b =? 0xE0)%N then 0xA0 else 0x80)%N
           (if (b =? 0xED)%N then 0x9F else 0xBF)%N)
  else if ((0xF0 <=? b) && (b <=? 0xF4))%N then
    ([], Pending (N.land b 0x7) 3
           (if (b =? 0xF0)%N then 0x90 else 0x80)%N
           (if (b =? 0xF4)%N then 0x8F else 0xBF)%N)
  else ([0xFFFD%N], Idle).

Definition utf8_step (st : utf8_state) (b : N) : list N * utf8_state :=
  match st with
  | Idle => utf8_lead b
  | Pending cp remaining lower upper =>
      if ((b <? lower) || (upper <? b))%N then
        let (out, st') := utf8_lead b in (0xFFFD%N :: out, st')
      else
        let cp' := N.lor (N.shiftl cp 6) (N.land b 0x3F) in
        match remaining with
        | S (S r) => ([], Pending cp' (S r) 0x80 0xBF)
        | _ => ([cp'], Idle)
        end
  end.

Fixpoint utf8_code_points (st : utf8_state) (bytes : list N) : list N :=
  match bytes with
  | [] => match st with Idle => [] | Pending _ _ _ _ => [0xFFFD%N] end
  | b :: rest =>
      let (out, st') := utf8_step st b in out ++ utf8_code_points st' rest
  end.

Definition utf16_encode (cp : N) : jsstring :=
  if (cp <? 0x10000)%N then [cp]
  else
    let c := (cp - 0x10000)%N in
    [(0xD800 + N.shiftr c 10)%N; (0xDC00 + N.land c 0x3FF)%N].

Definition strip_bom (bytes : list N) : list N :=
  match bytes with
  | 0xEF%N :: 0xBB%N :: 0xBF%N :: rest => rest
  | _ => bytes
  end.

Definition utf8_decode (bytes : list Byte.byte) : jsstring :=
  flat_map utf16_encode
    (utf8_code_points Idle (strip_bom (map Byte.to_N bytes))).

(** ** [JSON.parse]

    A recursive-descent reader of the JSON grammar (ECMA-404) over code
    units. *)

Definition is_json_ws (c : N) : bool :=
  ((c =? 32) || (c =? 9) || (c =? 10) || (c =? 13))%N.

Fixpoint skip_ws (s : jsstring) : jsstring :=
  match s with
  | c :: s' => if is_json_ws c then skip_ws s' else s
  | [] => []
  end.

Definition hex_digit (c : N) : option N :=
  if is_digit c then Some (c - 48)%N
  else if ((97 <=? c) && (c <=? 102))%N then Some (c - 87)%N
  else if ((65 <=? c) && (c <=? 70))%N then Some (c - 55)%N
  else None.

Definition hex4 (a b c d : N) : option N :=
  match hex_digit a, hex_digit b, hex_digit c, hex_digit d with
  | Some x, Some y, Some z, Some w => Some (((x * 16 + y) * 16 + z) * 16 + w)%N
  | _, _, _, _ => None
  end.

(** The character a one-letter escape stands for. *)
Definition escape_char (e : N) : option N :=
  if (e =? dquote)%N then Some dquote
  else if (e =? ch "\")%N then Some (ch "\")
  else if (e =? ch "/")%N then Some (ch "/")
  else if (e =? ch "b")%N then Some 8%N
  else if (e =? ch "f")%N then Some 12%N
  else if (e =? ch "n")%N then Some 10%N
  else if (e =? ch "r")%N then Some 13%N
  else if (e =? ch "t")%N then Some 9%N
  else None.

(** The characters of a string literal after its opening quote, up to and
    including the closing quote. *)
Fixpoint string_chars (s : jsstring) : option (jsstring * jsstring) :=
  match s with
  | [] => None
  | c :: r =>
      if (c =? dquote)%N then Some ([], r)
      else if (c =? ch "\")%N then
        match r with
        | [] => None
        | e :: r1 =>
            if (e =? ch "u")%N then
              match r1 with
              | h1 :: h2 :: h3 :: h4 :: r2 =>
                  match hex4 h1 h2 h3 h4, string_chars r2 with
                  | Some u, Some (t, rest) => Some (u :: t, rest)
                  | _, _ => None
                  end
              | _ => None
              end
            else
              match escape_char e, string_chars r1 with
              | Some u, Some (t, rest) => Some (u :: t, rest)
              | _, _ => None
              end
        end
      else if (c <? 32)%N then None
      else
        match string_chars r with
        | Some (t, rest) => Some (c :: t, rest)
        | None => None
        end
  end.

(** Number literals: [-]? int frac? exp?. Each part returns its text and the
    rest of the input. *)
Definition lex_sign (s : jsstring) : jsstring * jsstring :=
  match s with
  | c :: r => if (c =? ch "-")%N then ([c], r) else ([], s)
  | [] => ([], [])
  end.

Definition lex_int (s : jsstring) : option (jsstring * jsstring) :=
  match s with
  | c :: r =>
      if (c =? ch "0")%N then Some ([c], r)
      else if is_digit c then let (d, r') := digits r in Some (c :: d, r')
      else None
  | [] => None
  end.

Definition lex_frac (s : jsstring) : option (jsstring * jsstring) :=
  match s with
  | c :: r =>
      if (c =? ch ".")%N then
        match digits r with
        | ([], _) => None
        | (d, r') => Some (c :: d, r')
        end
      else Some ([], s)
  | [] => Some ([], [])
  end.

Definition lex_exp (s : jsstring) : option (jsstring * jsstring) :=
  match s with
  | c :: r =>
      if ((c =? ch "e") || (c =? ch "E"))%N then
        let (sign, r1) :=
          match r with
          | g :: r' =>
              if ((g =? ch "+") || (g =? ch "-"))%N then ([g], r') else ([], r)
          | [] => ([], [])
          end in
        match digits r1 with
        | ([], _) => None
        | (d, r2) => Some (c :: sign ++ d, r2)
        end
      else Some ([], s)
  | [] => Some ([], [])
  end.

Definition lex_number (s : jsstring) : option (jsstring * jsstring) :=
  let (sign, s1) := lex_sign s in
  match lex_int s1 with
  | None => None
  | Some (i, s2) =>
      match lex_frac s2 with
      | None => None
      | Some (f, s3) =>
          match lex_exp s3 with
          | None => None
          | Some (e, s4) => Some (sign ++ i ++ f ++ e, s4)
          end
      end
  end.

(** [strip_prefix p s] is what follows [p] in [s]. *)
Fixpoint strip_prefix (p s : jsstring) : option jsstring :=
  match p, s with
  | [], _ => Some s
  | _ :: _, [] => None
  | c :: p', d :: s' => if (c =? d)%N then strip_prefix p' s' else None
  end.

(** Property order of an ordinary object: array-index names in ascending
    order come first, then the other names in the order they were created.
    [define k v props] is CreateDataProperty: it overwrites [k] in place or
    adds it at its position. *)
Definition array_index (k : jsstring) : option N :=
  match k with
  | [] => None
  | c :: r =>
      if forallb is_digit k && (negb (c =? ch "0")%N || bool_decide (r = []))
      then
        let n := digits_value k in
        if (n <? 4294967295)%N then Some n else None
      else None
  end.

Definition key_before (k k' : jsstring) : bool :=
  match array_index k, array_index k' with
  | Some i, Some j => (i <? j)%N
  | Some _, None => true
  | None, _ => false
  end.

Fixpoint define (k : jsstring) (v : value) (props : list (jsstring * value))
  : list (jsstring * value) :=
  match props with
  | [] => [(k, v)]
  | (k', v') :: rest =>
      if streq k k' then (k, v) :: rest
      else if key_before k k' then (k, v) :: props
      else (k', v') :: define k v rest
  end.

Definition object_of (members : list (jsstring * value)) : value :=
  VObj (fold_left (fun props m => define (fst m) (snd m) props) members []).

Inductive parsed (A : Type) :=
| Parsed (a : A) (rest : jsstring)
| Malformed
| OutOfFuel.
Arguments Parsed {A} a rest.
Arguments Malformed {A}.
Arguments OutOfFuel {A}.

Definition parsed_bind {A B} (m : parsed A) (k : A -> jsstring -> parsed B)
  : parsed B :=
  match m with
  | Parsed a rest => k a rest
  | Malformed => Malformed
  | OutOfFuel => OutOfFuel
  end.

Definition parse_literal (s : jsstring) : parsed value :=
  match strip_prefix (str "true") s with
  | Some r => Parsed (VBool true) r
  | None =>
      match strip_prefix (str "false") s with
      | Some r => Parsed (VBool false) r
      | None =>
          match strip_prefix (str "null") s with
          | Some r => Parsed VNull r
          | None => Malformed
          end
      end
  end.

Fixpoint parse_value (fuel : nat) (s : jsstring) : parsed value :=
  match fuel with
  | O => OutOfFuel
  | S fuel' =>
      match skip_ws s with
      | [] => Malformed
      | c :: r =>
          if (c =? ch "{")%N then
            match skip_ws r with
            | d :: r' =>
                if (d =? ch "}")%N then Parsed (VObj []) r'
                else
                  parsed_bind (parse_members fuel' r)
                    (fun ms rest => Parsed (object_of ms) rest)
            | [] => Malformed
            end
          else if (c =? ch "[")%N then
            match skip_ws r with
            | d :: r' =>
                if (d =? ch "]")%N then Parsed (VArr []) r'
                else
                  parsed_bind (parse_elements fuel' r)
                    (fun vs rest => Parsed (VArr vs) rest)
            | [] => Malformed
            end
          else if (c =? dquote)%N then
            match string_chars r with
            | Some (t, rest) => Parsed (VStr t) rest
            | None => Malformed
            end
          else if (c =? ch "-")%N || is_digit c then
            match lex_number (c :: r) with
            | Some (lit, rest) => Parsed (VNum lit) rest
            | None => Malformed
            end
          else parse_literal (c :: r)
      end
  end

with parse_elements (fuel : nat) (s : jsstring) : parsed (list value) :=
  match fuel with
  | O => OutOfFuel
  | S fuel' =>
      parsed_bind (parse_value fuel' s) (fun v r =>
        match skip_ws r with
        | c :: r' =>
            if (c =? ch ",")%N then
              parsed_bind (parse_elements fuel' r')
                (fun vs rest => Parsed (v :: vs) rest)
            else if (c =? ch "]")%N then Parsed [v] r'
            else Malformed
        | [] => Malformed
        end)
  end

with parse_members (fuel : nat) (s : jsstring)
  : parsed (list (jsstring * value)) :=
  match fuel with
  | O => OutOfFuel
  | S fuel' =>
      match skip_ws s with
      | q :: r =>
          if (q =? dquote)%N then
            match string_chars r with
            | Some (k, r1) =>
                match skip_ws r1 with
                | colon :: r2 =>
                    if (colon =? ch ":")%N then
                      parsed_bind (parse_value fuel' r2) (fun v r3 =>
                        match skip_ws r3 with
                        | c :: r4 =>
                            if (c =? ch ",")%N then
                              parsed_bind (parse_members fuel' r4)
                                (fun ms rest => Parsed ((k, v) :: ms) rest)
                            else if (c =? ch "}")%N then Parsed [(k, v)] r4
                            else Malformed
                        | [] => Malformed
                        end)
                    else Malformed
                | [] => Malformed
                end
            | None => Malformed
            end
          else Malformed
      | [] => Malformed
      end
  end.

(** [JSON.parse(text)]: one value, white space around it, nothing else. Every
    recursive call is made on a shorter input, so the fuel given here is never
    used up ([parse_value_fuel] below); a text that is not JSON throws
    SyntaxError. *)
Definition JSON_parse (text : jsstring) : result value :=
  match parse_value (2 * length text + 1) text with
  | Parsed v rest =>
      match skip_ws rest with
      | [] => Ok v
      | _ :: _ => Throw SyntaxError
      end
  | Malformed | OutOfFuel => Throw SyntaxError
  end.

(** ** [JSON.stringify] *)

Definition hex_char (n : N) : N :=
  if (n <? 10)%N then (48 + n)%N else (87 + n)%N.

Definition unicode_escape (c : N) : jsstring :=
  [ch "\"; ch "u"; hex_char (c / 4096 mod 16); hex_char (c / 256 mod 16);
   hex_char (c / 16 mod 16); hex_char (c mod 16)]%N.

Definition is_high_surrogate (c : N) : bool := ((0xD800 <=? c) && (c <=? 0xDBFF))%N.
Definition is_low_surrogate (c : N) : bool := ((0xDC00 <=? c) && (c <=? 0xDFFF))%N.

(** One code unit that is not the first half of a surrogate pair. *)
Definition quote_unit (c : N) : jsstring :=
  if (c =? 8)%N then [ch "\"; ch "b"]
  else if (c =? 9)%N then [ch "\"; ch "t"]
  else if (c =? 10)%N then [ch "\"; ch "n"]
  else if (c =? 12)%N then [ch "\"; ch "f"]
  else if (c =? 13)%N then [ch "\"; ch "r"]
  else if (c =? dquote)%N then [ch "\"; dquote]
  else if (c =? ch "\")%N then [ch "\"; ch "\"]
  else if (c <? 32)%N || is_low_surrogate c then unicode_escape c
  else [c].

(** QuoteJSONString without the quotes: a surrogate pair is copied, a lone
    surrogate is written as an escape. *)
Fixpoint quote_chars (s : jsstring) : jsstring :=
  match s with
  | [] => []
  | c :: r =>
      if is_high_surrogate c then
        match r with
        | d :: r' =>
            if is_low_surrogate d then c :: d :: quote_chars r'
            else unicode_escape c ++ quote_chars r
        | [] => unicode_escape c
        end
      else quote_unit c ++ quote_chars r
  end.

Definition quote (s : jsstring) : jsstring :=
  dquote :: quote_chars s ++ [dquote].

Fixpoint join_comma (parts : list jsstring) : jsstring :=
  match parts with
  | [] => []
  | [p] => p
  | p :: rest => p ++ ch "," :: join_comma rest
  end.

(** [JSON.stringify(v)] without indentation. A number is written with the
    literal it was read from; JavaScript writes the shortest decimal that
    reads back as the same double, so the spelling of a number may differ
    (1.0 is written 1). No statement below depends on how a number is
    spelled. *)
Fixpoint JSON_stringify (v : value) : jsstring :=
  match v with
  | VNull => str "null"
  | VBool true => str "true"
  | VBool false => str "false"
  | VNum lit => lit
  | VStr s => quote s
  | VArr items => ch "[" :: join_comma (map JSON_stringify items) ++ [ch "]"]
  | VObj props =>
      ch "{"
      :: join_comma
           (map (fun p => quote (fst p) ++ ch ":" :: JSON_stringify (snd p))
              props)
      ++ [ch "}"]
  end.

(** ** The Worker (src/index.ts) *)

Module Worker.

Definition MODEL_ID : jsstring := str "@cf/meta/llama-3.3-70b-instruct-fp8-fast".

Definition SYSTEM_PROMPT : jsstring :=
  str "You are a helpful, friendly assistant. Provide concise and accurate responses.".

(** A request as the handlers read it: [pathname] is
    [new URL(request.url).pathname], [body] the bytes of the body when there
    is one. *)
Record Request := {
  method : jsstring;
  pathname : jsstring;
  headers : list (jsstring * jsstring);
  body : option (list Byte.byte)
}.

Record Response := {
  status : N;
  response_headers : list (jsstring * jsstring);
  response_body : option jsstring;
  webSocket : option nat
}.

Definition ascii_lower (c : N) : N :=
  if ((65 <=? c) && (c <=? 90))%N then (c + 32)%N else c.

Definition header_name_eq (a b : jsstring) : bool :=
  streq (map ascii_lower a) (map ascii_lower b).

Fixpoint join_values (vs : list jsstring) : jsstring :=
  match vs with
  | [] => []
  | [v] => v
  | v :: rest => v ++ str ", " ++ join_values rest
  end.

(** [headers.get(name)]: names match without regard to ASCII case, the
    values of a repeated header are joined, [None] is [null]. *)
Definition headers_get (hs : list (jsstring * jsstring)) (name : jsstring)
  : option jsstring :=
  match List.filter (fun h => header_name_eq (fst h) name) hs with
  | [] => None
  | found => Some (join_values (map snd found))
  end.

(** [new Response(text, { status, headers })]: a text body brings its
    content type when the headers give none. *)
Definition text_response (text : jsstring) (st : N)
  (hs : list (jsstring * jsstring)) : Response :=
  {| status := st;
     response_headers :=
       match headers_get hs (str "content-type") with
       | Some _ => hs
       | None => hs ++ [(str "content-type", str "text/plain;charset=UTF-8")]
       end;
     response_body := Some text;
     webSocket := None |}.

(** Modelled from the spec: the declaration of [Env] (./types) is not among
    the sources. The record holds the two bindings index.ts uses, the
    inference API in its two call forms and the asset store, as section 6 of
    the spec describes them. [AI_run model messages max_tokens] is
    [env.AI.run(model, { messages, max_tokens })], whose result is a value or
    [undefined] ([None]); [AI_run_raw] is the same call with
    [{ returnRawResponse: true }]. Either may throw. *)
Record Env := {
  AI_run : jsstring -> list value -> N -> result (option value);
  AI_run_raw : jsstring -> list value -> N -> result Response;
  ASSETS_fetch : Request -> Response
}.

(** [msg.role === "system"] *)
Definition is_system (msg : value) : result bool :=
  let* role := get msg (str "role") in
  Ok match role with
     | Some (VStr s) => streq s (str "system")
     | _ => false
     end.

(** [msgs.some((msg) => msg.role === "system")] *)
Fixpoint some_system (msgs : list value) : result bool :=
  match msgs with
  | [] => Ok false
  | msg :: rest =>
      let* found := is_system msg in
      if found then Ok true else some_system rest
  end.

Definition system_message : value :=
  VObj [(str "role", VStr (str "system")); (str "content", VStr SYSTEM_PROMPT)].

(** Lines 71-73 and 124-126: add the system prompt if not present. Calling
    [some] on anything but an array throws. The result is the array after the
    [unshift]. *)
Definition add_system_prompt (messages : value) : result (list value) :=
  match messages with
  | VArr msgs =>
      let* found := some_system msgs in
      Ok (if found then msgs else system_message :: msgs)
  | _ => Throw TypeError
  end.

(** [const { messages = [] } = payload] *)
Definition destructure_messages (payload : value) : result value :=
  let* m := get payload (str "messages") in
  Ok match m with
     | Some v => v
     | None => VArr []
     end.

(** [await request.json()] *)
Definition request_json (req : Request) : result value :=
  JSON_parse (utf8_decode (default [] (body req))).

Definition error_response : Response :=
  text_response
    (JSON_stringify (VObj [(str "error", VStr (str "Failed to process request"))]))
    500 [(str "content-type", str "application/json")].

Definition handleChatRequest (env : Env) (req : Request) : Response :=
  try_catch
    (let* payload := request_json req in
     let* messages := destructure_messages payload in
     let* messages := add_system_prompt messages in
     AI_run_raw env MODEL_ID messages 1024)
    error_response.

(** The server end of a WebSocketPair: whether it was accepted, whether the
    listeners are registered, whether it is closed, and the frames sent on
    it, oldest first. *)
Record ServerSocket := {
  accepted : bool;
  listening : bool;
  closed : bool;
  sent : list jsstring
}.

(** The pairs created so far; a pair is named by its position. *)
Record Runtime := { pairs : list ServerSocket }.

Definition send (frame : jsstring) (s : ServerSocket) : ServerSocket :=
  {| accepted := accepted s; listening := listening s; closed := closed s;
     sent := sent s ++ [frame] |}.

(** [event.data] of a message event. *)
Inductive MessageData :=
| TextData (s : jsstring)
| BinaryData (bytes : list Byte.byte).

Definition data_string (d : MessageData) : jsstring :=
  match d with
  | TextData s => s
  | BinaryData bytes => utf8_decode bytes
  end.

(** [k in v && typeof v[k] === "string"] *)
Definition string_property (v : value) (k : jsstring) : option jsstring :=
  match v with
  | VObj props =>
      match assoc k props with
      | Some (VStr s) => Some s
      | _ => None
      end
  | _ => None
  end.

(** Lines 136-145. *)
Definition extract_text (aiResponse : option value) : jsstring :=
  match aiResponse with
  | Some (VStr s) => s
  | Some ((VArr _ | VObj _) as obj) =>
      match string_property obj (str "response") with
      | Some s => s
      | None =>
          match string_property obj (str "result") with
          | Some s => s
          | None => str "[No response]"
          end
      end
  | _ => str "[No response]"
  end.

Definition response_frame (text : jsstring) : jsstring :=
  JSON_stringify (VObj [(str "response", VStr text)]).

Definition apology : jsstring :=
  str "Sorry, there was an error processing your request.".

(** The body of the [try] block of the message listener. *)
Definition relay (env : Env) (data : MessageData) (server : ServerSocket)
  : result ServerSocket :=
  let* payload := JSON_parse (data_string data) in
  let* messages := destructure_messages payload in
  let* messages := add_system_prompt messages in
  let* aiResponse := AI_run env MODEL_ID messages 1024 in
  Ok (send (response_frame (extract_text aiResponse)) server).

(** The message listener of lines 116-150. [env] stands for the bindings as
    they answer during this event. *)
Definition onMessage (env : Env) (data : MessageData) (server : ServerSocket)
  : ServerSocket :=
  try_catch (relay env data server) (send (response_frame apology) server).

Definition handleWebSocket (env : Env) (req : Request) (rt : Runtime)
  : Response * Runtime :=
  if negb match headers_get (headers req) (str "Upgrade") with
          | Some v => streq v (str "websocket")
          | None => false
          end
  then (text_response (str "Expected Upgrade: websocket") 426 [], rt)
  else
    let server :=
      {| accepted := true; listening := true; closed := false; sent := [] |} in
    ({| status := 101; response_headers := []; response_body := None;
        webSocket := Some (length (pairs rt)) |},
     {| pairs := pairs rt ++ [server] |}).

Definition fetch (env : Env) (req : Request) (rt : Runtime)
  : Response * Runtime :=
  if streq (pathname req) (str "/ws") then handleWebSocket env req rt
  else if streq (pathname req) (str "/")
          || negb (startsWith (pathname req) (str "/api/"))
  then (ASSETS_fetch env req, rt)
  else if streq (pathname req) (str "/api/chat") then
    if streq (method req) (str "POST") then (handleChatRequest env req, rt)
    else (text_response (str "Method not allowed") 405 [], rt)
  else (text_response (str "Not found") 404 [], rt).

(** The close listener of lines 152-154 does nothing. *)
Definition onClose (server : ServerSocket) : ServerSocket := server.

(** A message event on the server end of pair [id]: the runtime calls the
    listener of an accepted socket that is not closed. *)
Definition deliver (env : Env) (id : nat) (data : MessageData) (rt : Runtime)
  : Runtime :=
  match pairs rt !! id with
  | Some server =>
      if accepted server && listening server && negb (closed server)
      then {| pairs := <[id := onMessage env data server]> (pairs rt) |}
      else rt
  | None => rt
  end.

(** The peer closes pair [id]: the close listener runs and the socket is
    closed from then on. *)
Definition peer_close (id : nat) (rt : Runtime) : Runtime :=
  match pairs rt !! id with
  | Some server =>
      let server' := if listening server then onClose server else server in
      {| pairs :=
           <[id := {| accepted := accepted server';
                      listening := listening server';
                      closed := true;
                      sent := sent server' |}]> (pairs rt) |}
  | None => rt
  end.

End Worker.

(** ** The browser client (public/chat.js) *)

Module Client.

(** A child of the chat log as [addMessageToChat] builds it: a [div] of class
    [className] whose [innerHTML] is a paragraph around the string that
    [content] converts to. *)
Record Element := {
  className : jsstring;
  content : value
}.

(** The page: the value, the [disabled] flag and the focus of [userInput],
    the [disabled] flag of [sendButton], whether [typingIndicator] has the
    class [visible], and the children of [chatMessages]. *)
Record Dom := {
  userInput_value : jsstring;
  userInput_disabled : bool;
  sendButton_disabled : bool;
  userInput_focused : bool;
  typingIndicator_visible : bool;
  chatMessages : list Element
}.

(** The variables of the script, the page, and what the script did to the
    outside: [sockets] counts the WebSocket objects created, [timers] the
    pending reconnect timers, [outbox] holds the frames passed to
    [socket.send], oldest first. *)
Record State := {
  chatHistory : list value;
  isProcessing : bool;
  socketReady : bool;
  sockets : nat;
  timers : nat;
  outbox : list jsstring;
  dom : Dom
}.

Definition chat_message (role : jsstring) (text : value) : value :=
  VObj [(str "role", VStr role); (str "content", text)].

Definition greeting : value :=
  chat_message (str "assistant")
    (VStr (str "Hello! I'm an LLM chat app powered by Cloudflare Workers AI. How can I help you today?")).

Definition apology : jsstring :=
  str "Sorry, there was an error processing your request.".

(** [addMessageToChat(role, content)]. The template literal of line 120
    converts [content] to a string; where that throws, the element made on
    line 118 is never appended and the page is as it was. *)
Definition addMessageToChat (role : jsstring) (text : value) (d : Dom)
  : result Dom :=
  if to_string_throws text then Throw TypeError
  else
    Ok {| userInput_value := userInput_value d;
          userInput_disabled := userInput_disabled d;
          sendButton_disabled := sendButton_disabled d;
          userInput_focused := userInput_focused d;
          typingIndicator_visible := typingIndicator_visible d;
          chatMessages :=
            chatMessages d
            ++ [{| className := str "message " ++ role ++ str "-message";
                   content := text |}] |}.

(** The five statements that end a turn (lines 54-58 and 106-110): hide the
    typing indicator, enable both controls, focus the input. [isProcessing]
    is cleared next to them. *)
Definition release (d : Dom) : Dom :=
  {| userInput_value := userInput_value d;
     userInput_disabled := false;
     sendButton_disabled := false;
     userInput_focused := true;
     typingIndicator_visible := false;
     chatMessages := chatMessages d |}.

(** [connectWebSocket()]: a new socket replaces the old one. *)
Definition connectWebSocket (s : State) : State :=
  {| chatHistory := chatHistory s; isProcessing := isProcessing s;
     socketReady := socketReady s; sockets := S (sockets s);
     timers := timers s; outbox := outbox s; dom := dom s |}.

(** The script as it has run once over the page [page]. *)
Definition load (page : Dom) : State :=
  connectWebSocket
    {| chatHistory := [greeting]; isProcessing := false; socketReady := false;
       sockets := 0; timers := 0; outbox := []; dom := page |}.

Definition onOpen (s : State) : State :=
  {| chatHistory := chatHistory s; isProcessing := isProcessing s;
     socketReady := true; sockets := sockets s;
     timers := timers s; outbox := outbox s; dom := dom s |}.

Definition onClose (s : State) : State :=
  {| chatHistory := chatHistory s; isProcessing := isProcessing s;
     socketReady := false; sockets := sockets s;
     timers := S (timers s); outbox := outbox s; dom := dom s |}.

(** The reconnect timer fires. *)
Definition onTimer (s : State) : State :=
  match timers s with
  | O => s
  | S n =>
      connectWebSocket
        {| chatHistory := chatHistory s; isProcessing := isProcessing s;
           socketReady := socketReady s; sockets := sockets s;
           timers := n; outbox := outbox s; dom := dom s |}
  end.

(** The [try] block of the message listener (lines 45-53): what it changes
    are the chat log and the history. [addMessageToChat] runs first; where
    it throws, [chatHistory.push] is not reached. *)
Definition receive (data : jsstring) (s : State) : result State :=
  let* parsed := JSON_parse data in
  let* response := get parsed (str "response") in
  match response with
  | Some r =>
      if truthy r then
        let* d := addMessageToChat (str "assistant") r (dom s) in
        Ok {| chatHistory := chatHistory s ++ [chat_message (str "assistant") r];
              isProcessing := isProcessing s; socketReady := socketReady s;
              sockets := sockets s; timers := timers s; outbox := outbox s;
              dom := d |}
      else Ok s
  | None => Ok s
  end.

(** The message listener, for a text frame [data]. *)
Definition onMessage (data : jsstring) (s : State) : State :=
  let s1 := try_catch (receive data s) s in
  {| chatHistory := chatHistory s1; isProcessing := false;
     socketReady := socketReady s1; sockets := sockets s1;
     timers := timers s1; outbox := outbox s1; dom := release (dom s1) |}.

(** The user edits the input field. *)
Definition onInput (text : jsstring) (s : State) : State :=
  {| chatHistory := chatHistory s; isProcessing := isProcessing s;
     socketReady := socketReady s; sockets := sockets s;
     timers := timers s; outbox := outbox s;
     dom := {| userInput_value := text;
               userInput_disabled := userInput_disabled (dom s);
               sendButton_disabled := sendButton_disabled (dom s);
               userInput_focused := userInput_focused (dom s);
               typingIndicator_visible := typingIndicator_visible (dom s);
               chatMessages := chatMessages (dom s) |} |}.

(** [sendMessage()]. [send_throws] says whether the [socket.send] call of
    this run throws. Both calls of [addMessageToChat] pass a string, which
    always converts; were one to throw, the function would end there, the
    first outside the [try] block and the second inside its [catch] clause,
    with the statements after it not run. *)
Definition sendMessage (send_throws : bool) (s : State) : State :=
  let message := trim (userInput_value (dom s)) in
  if streq message [] || isProcessing s || negb (socketReady s) then s
  else
    let d0 := {| userInput_value := userInput_value (dom s);
                 userInput_disabled := true;
                 sendButton_disabled := true;
                 userInput_focused := userInput_focused (dom s);
                 typingIndicator_visible := typingIndicator_visible (dom s);
                 chatMessages := chatMessages (dom s) |} in
    match addMessageToChat (str "user") (VStr message) d0 with
    | Throw _ =>
        {| chatHistory := chatHistory s; isProcessing := true;
           socketReady := socketReady s; sockets := sockets s;
           timers := timers s; outbox := outbox s; dom := d0 |}
    | Ok d1 =>
        let d2 := {| userInput_value := [];
                     userInput_disabled := userInput_disabled d1;
                     sendButton_disabled := sendButton_disabled d1;
                     userInput_focused := userInput_focused d1;
                     typingIndicator_visible := true;
                     chatMessages := chatMessages d1 |} in
        let history :=
          chatHistory s ++ [chat_message (str "user") (VStr message)] in
        if send_throws then
          match addMessageToChat (str "assistant") (VStr apology) d2 with
          | Throw _ =>
              {| chatHistory := history; isProcessing := true;
                 socketReady := socketReady s; sockets := sockets s;
                 timers := timers s; outbox := outbox s; dom := d2 |}
          | Ok d3 =>
              {| chatHistory := history; isProcessing := false;
                 socketReady := socketReady s; sockets := sockets s;
                 timers := timers s; outbox := outbox s;
                 dom := release d3 |}
          end
        else
          {| chatHistory := history; isProcessing := true;
             socketReady := socketReady s; sockets := sockets s;
             timers := timers s;
             outbox :=
               outbox s
               ++ [JSON_stringify (VObj [(str "messages", VArr history)])];
             dom := d2 |}
    end.

(** What can happen to a loaded page. *)
Inductive Event :=
| SocketOpen
| SocketClose
| ReconnectTimer
| SocketMessage (data : jsstring)
| UserInput (text : jsstring)
| SendMessage (send_throws : bool).

Definition step (s : State) (e : Event) : State :=
  match e with
  | SocketOpen => onOpen s
  | SocketClose => onClose s
  | ReconnectTimer => onTimer s
  | SocketMessage data => onMessage data s
  | UserInput text => onInput text s
  | SendMessage send_throws => sendMessage send_throws s
  end.

Definition run (s : State) (events : list Event) : State :=
  fold_left step events s.

End Client.

(** ** Vocabulary of the statements *)

(** A parse result that did not run out of fuel and left less than [n] code
    units. *)
Definition fuelled {A} (m : parsed A) (n : nat) : Prop :=
  m <> OutOfFuel /\ forall a r, m = Parsed a r -> length r < n.

(** Modelled from the spec: the declaration of [ChatMessage] (./types) is
    not among the sources. A message is a JSON object; the statements do not
    constrain its fields, [role] and [content] are read as the code reads
    them. *)
Definition is_message (v : value) : Prop := exists props, v = VObj props.

(** The entry has role "system". *)
Definition role_is_system (v : value) : bool :=
  match v with
  | VObj props =>
      match assoc (str "role") props with
      | Some (VStr s) => streq s (str "system")
      | _ => false
      end
  | _ => false
  end.

Definition has_system (msgs : list value) : bool := existsb role_is_system msgs.

(** The frame the message listener of the Worker sends for [data]. *)
Definition reply_frame (env : Worker.Env) (data : Worker.MessageData)
  : jsstring :=
  try_catch
    (let* payload := JSON_parse (Worker.data_string data) in
     let* messages := Worker.destructure_messages payload in
     let* messages := Worker.add_system_prompt messages in
     let* aiResponse := Worker.AI_run env Worker.MODEL_ID messages 1024 in
     Ok (Worker.response_frame (Worker.extract_text aiResponse)))
    (Worker.response_frame Worker.apology).

(** The three conditions under which [sendMessage] goes on. *)
Definition may_send (s : Client.State) : Prop :=
  trim (Client.userInput_value (Client.dom s)) <> []
  /\ Client.isProcessing s = false
  /\ Client.socketReady s = true.

(** The user turn [sendMessage] appends when it goes on. *)
Definition user_turn (s : Client.State) : value :=
  Client.chat_message (str "user")
    (VStr (trim (Client.userInput_value (Client.dom s)))).

(** The frame of the client for a history. *)
Definition messages_frame (history : list value) : jsstring :=
  JSON_stringify (VObj [(str "messages", VArr history)]).

Definition not_a_message (e : Client.Event) : Prop :=
  forall data, e <> Client.SocketMessage data.

(** An entry the client wrote: a user turn or an assistant turn. *)
Definition client_turn (m : value) : Prop :=
  exists role text,
    m = Client.chat_message role text
    /\ (role = str "user" \/ role = str "assistant").

(** A frame of the client whose array starts with the greeting. *)
Definition greeted_frame (frame : jsstring) : Prop :=
  exists rest, frame = messages_frame (Client.greeting :: rest).

(** What every state of a loaded page satisfies. *)
Record well_formed (s : Client.State) : Prop := {
  wf_greeting : exists rest, Client.chatHistory s = Client.greeting :: rest;
  wf_turns : Forall client_turn (Client.chatHistory s);
  wf_frames : Forall greeted_frame (Client.outbox s)
}.

(** ** Stubs for the examples

    [json_text] writes a JSON text with an apostrophe where the text has a
    double quote; [json_bytes] is the same text as the bytes of a request
    body. *)

Definition json_text (s : string) : jsstring :=
  map (fun c => if (c =? ch "'")%N then dquote else c) (str s).

Definition json_bytes (s : string) : list Byte.byte :=
  map (fun b => if Byte.eqb b Byte.x27 then Byte.x22 else b)
    (list_byte_of_string s).

Module Stub.
Import Worker.

Definition streamed : Response :=
  {| status := 200;
     response_headers := [(str "content-type", str "text/event-stream")];
     response_body := Some (str "data: [DONE]");
     webSocket := None |}.

Definition page : Response :=
  {| status := 200;
     response_headers := [(str "content-type", str "text/html")];
     response_body := Some (str "<!doctype html>");
     webSocket := None |}.

(** An inference API that answers [answer] on every call and an asset store
    that serves the page for every path. *)
Definition env (answer : result (option value)) : Env :=
  {| AI_run := fun _ _ _ => answer;
     AI_run_raw := fun _ _ _ => Ok streamed;
     ASSETS_fetch := fun _ => page |}.

Definition request (m p : string) (hs : list (jsstring * jsstring))
  (b : option (list Byte.byte)) : Request :=
  {| method := str m; pathname := str p; headers := hs; body := b |}.

Definition no_pairs : Runtime := {| pairs := [] |}.

Definition fresh_socket : ServerSocket :=
  {| accepted := true; listening := true; closed := false; sent := [] |}.

(** A user turn, and the JSON text of a payload that carries it. *)
Definition user_hi : value :=
  VObj [(str "role", VStr (str "user")); (str "content", VStr (str "hi"))].

Definition hi_payload : string := "{'messages':[{'role':'user','content':'hi'}]}".

(** A page as the script finds it. *)
Definition blank_page : Client.Dom :=
  {| Client.userInput_value := []; Client.userInput_disabled := false;
     Client.sendButton_disabled := false; Client.userInput_focused := false;
     Client.typingIndicator_visible := false; Client.chatMessages := [] |}.

(** A loaded page whose socket is open and whose input holds " hi ". *)
Definition ready_hi : Client.State :=
  Client.onInput (str " hi ") (Client.onOpen (Client.load blank_page)).

End Stub.

(** ** The key and button listeners of the client (public/chat.js, lines
    70-79) *)

Module Controls.
Import Client.

(** The keydown listener of [userInput]; the second component says whether
    [preventDefault] was called. *)
Definition onKeydown (key : jsstring) (shiftKey send_throws : bool) (s : State)
  : State * bool :=
  if streq key (str "Enter") && negb shiftKey
  then (sendMessage send_throws s, true)
  else (s, false).

(** The click listener of [sendButton] is [sendMessage] itself. *)
Definition onClick (send_throws : bool) (s : State) : State :=
  sendMessage send_throws s.

(** What the user and the socket can do to the page. *)
Inductive Action :=
| Happens (e : Event)
| Keydown (key : jsstring) (shiftKey send_throws : bool)
| Click (send_throws : bool).

Definition act (s : State) (a : Action) : State :=
  match a with
  | Happens e => step s e
  | Keydown key shiftKey send_throws => (onKeydown key shiftKey send_throws s).1
  | Click send_throws => onClick send_throws s
  end.

Definition perform (s : State) (actions : list Action) : State :=
  fold_left act actions s.

End Controls.

(** ** Vocabulary of the further statements *)

(** A turn of the client whose content is a string. *)
Definition text_turn (m : value) : Prop :=
  exists role text,
    m = Client.chat_message role (VStr text)
    /\ (role = str "user" \/ role = str "assistant").

(** An event that, when it is an incoming frame, is a frame of the Worker. *)
Definition from_worker (e : Client.Event) : Prop :=
  forall data,
    e = Client.SocketMessage data -> exists text, data = Worker.response_frame text.

(** What the Worker does with a frame once it has read [forwarded] from it. *)
Definition answer (env : Worker.Env) (forwarded : list value)
  (server : Worker.ServerSocket) : Worker.ServerSocket :=
  try_catch
    (let* aiResponse := Worker.AI_run env Worker.MODEL_ID forwarded 1024 in
     Ok (Worker.send (Worker.response_frame (Worker.extract_text aiResponse))
           server))
    (Worker.send (Worker.response_frame Worker.apology) server).

(** The child [addMessageToChat] appends for a turn. *)
Definition bubble (role : jsstring) (text : value) : Client.Element :=
  {| Client.className := str "message " ++ role ++ str "-message";
     Client.content := text |}.

(** A turn as a role and a content, the entry of the history it makes and
    the child of the chat log it makes. *)
Definition turn_message (t : jsstring * value) : value :=
  Client.chat_message t.1 t.2.

Definition turn_bubble (t : jsstring * value) : Client.Element :=
  bubble t.1 t.2.

Definition is_close (e : Client.Event) : bool :=
  match e with
  | Client.SocketClose => true
  | _ => false
  end.

Definition not_an_open (e : Client.Event) : Prop := e <> Client.SocketOpen.

(** While a send is in flight the controls are disabled and the typing
    indicator is shown. *)
Definition locked (s : Client.State) : Prop :=
  Client.isProcessing s = true ->
  Client.userInput_disabled (Client.dom s) = true
  /\ Client.sendButton_disabled (Client.dom s) = true
  /\ Client.typingIndicator_visible (Client.dom s) = true.

(** The events an action amounts to. *)
Definition events_of (a : Controls.Action) : list Client.Event :=
  match a with
  | Controls.Happens e => [e]
  | Controls.Keydown key shiftKey send_throws =>
      if streq key (str "Enter") && negb shiftKey
      then [Client.SendMessage send_throws]
      else []
  | Controls.Click send_throws => [Client.SendMessage send_throws]
  end.

(** The first and the last code unit of a string are not white space. *)
Definition trimmed (s : jsstring) : Prop :=
  (forall c r, s = c :: r -> is_trim_space c = false)
  /\ (forall c r, s = r ++ [c] -> is_trim_space c = false).

(** A state of a client that has only heard from the Worker: the history
    and every frame sent hold text turns, the greeting first. *)
Record conversing (s : Client.State) : Prop := {
  cv_history :
    exists rest, Client.chatHistory s = Client.greeting :: rest;
  cv_turns : Forall text_turn (Client.chatHistory s);
  cv_frames :
    Forall (fun frame =>
              exists rest,
                frame = messages_frame (Client.greeting :: rest)
                /\ Forall text_turn (Client.greeting :: rest))
      (Client.outbox s)
}.

(** The text of the frame the Worker sends when the inference call has the
    outcome [outcome]. *)
Definition reply_text (outcome : result (option value)) : jsstring :=
  match outcome with
  | Ok aiResponse => Worker.extract_text aiResponse
  | Throw _ => Worker.apology
  end.

(** * Theorems *)

(** ** Strings and completion records *)

Lemma streq_eq (a b : jsstring) : streq a b = true <-> a = b.
Proof. unfold streq. apply bool_decide_eq_true. Qed.

Lemma streq_neq (a b : jsstring) : streq a b = false <-> a <> b.
Proof. unfold streq. apply bool_decide_eq_false. Qed.

Lemma streq_refl (a : jsstring) : streq a a = true.
Proof. apply streq_eq. reflexivity. Qed.

(** ** The reader always has fuel left *)

Lemma skip_ws_length (s : jsstring) : length (skip_ws s) <= length s.
Proof.
  induction s as [|c s IH]; simpl; [lia|].
  destruct (is_json_ws c); simpl; lia.
Qed.

Lemma digits_length (s d r : jsstring) :
  digits s = (d, r) -> length d + length r = length s.
Proof.
  revert d r. induction s as [|c s IH]; simpl; intros d r H.
  - inversion H. reflexivity.
  - destruct (is_digit c).
    + destruct (digits s) as [d' r'] eqn:E. inversion H; subst.
      simpl. specialize (IH _ _ eq_refl). lia.
    + inversion H. simpl. lia.
Qed.

Lemma string_chars_length (s t r : jsstring) :
  string_chars s = Some (t, r) -> length r < length s.
Proof.
  revert t r. induction s as [s IH] using (induction_ltof1 _ (@length N)).
  unfold ltof in IH. intros t r H. destruct s as [|c s]; simpl in H; [discriminate|].
  repeat case_match; simplify_eq; simpl in *;
    try match goal with
        | E : string_chars ?x = Some (_, _) |- _ => apply IH in E; simpl; try lia
        end; simpl; lia.
Qed.

Lemma strip_prefix_length (p s r : jsstring) :
  strip_prefix p s = Some r -> length p + length r = length s.
Proof.
  revert s. induction p as [|c p IH]; intros [|d s] H; simpl in *;
    simplify_eq; try reflexivity.
  destruct (c =? d)%N; [|discriminate]. apply IH in H. lia.
Qed.

Lemma lex_number_length (s lit r : jsstring) :
  lex_number s = Some (lit, r) -> length r < length s.
Proof.
  unfold lex_number, lex_sign, lex_int, lex_frac, lex_exp. intros H.
  repeat (case_match; simplify_eq);
    repeat match goal with
           | E : digits _ = (_, _) |- _ => apply digits_length in E
           end; simpl in *; lia.
Qed.

Lemma parse_literal_length (s : jsstring) :
  parse_literal s <> OutOfFuel
  /\ forall v r, parse_literal s = Parsed v r -> length r < length s.
Proof.
  unfold parse_literal. split.
  - repeat case_match; discriminate.
  - intros v r H.
    repeat case_match; simplify_eq;
      match goal with
      | E : strip_prefix _ _ = Some _ |- _ =>
          apply strip_prefix_length in E; simpl in E; lia
      end.
Qed.

(** A branch that ends in [Malformed]. *)
Ltac no_value := simpl; split; [discriminate | intros; discriminate].

(** A branch that ends in [Parsed _ r]: the bound on [r] is arithmetic. *)
Ltac value_found :=
  simpl; split; [discriminate |];
  let H := fresh in intros ? ? H; inversion H; subst; simpl in *; lia.

Lemma parse_fuel (fuel : nat) :
  (forall s, 2 * length s + 1 <= fuel ->
             fuelled (parse_value fuel s) (length s))
  /\ (forall s, 2 * length s + 2 <= fuel ->
                fuelled (parse_elements fuel s) (length s))
  /\ (forall s, 2 * length s + 2 <= fuel ->
                fuelled (parse_members fuel s) (length s)).
Proof.
  induction fuel as [|fuel (IHv & IHe & IHm)].
  { repeat split; intros; lia. }
  split; [|split]; intros s Hs; simpl.
  - pose proof (skip_ws_length s) as Hws.
    destruct (skip_ws s) as [|c r] eqn:Es; [no_value|].
    simpl in Hws.
    destruct (c =? ch "{")%N.
    { pose proof (skip_ws_length r) as Hr.
      destruct (skip_ws r) as [|d r'] eqn:Er; [no_value|].
      simpl in Hr. destruct (d =? ch "}")%N.
      - split; [discriminate|]. intros a r0 H. inversion H; subst. lia.
      - destruct (IHm r ltac:(lia)) as [Hf Hl].
        destruct (parse_members fuel r) as [ms rest| |]; simpl;
          [|no_value|contradiction].
        split; [discriminate|]. intros a r0 H. inversion H; subst.
        specialize (Hl _ _ eq_refl). lia. }
    destruct (c =? ch "[")%N.
    { pose proof (skip_ws_length r) as Hr.
      destruct (skip_ws r) as [|d r'] eqn:Er; [no_value|].
      simpl in Hr. destruct (d =? ch "]")%N.
      - split; [discriminate|]. intros a r0 H. inversion H; subst. lia.
      - destruct (IHe r ltac:(lia)) as [Hf Hl].
        destruct (parse_elements fuel r) as [vs rest| |]; simpl;
          [|no_value|contradiction].
        split; [discriminate|]. intros a r0 H. inversion H; subst.
        specialize (Hl _ _ eq_refl). lia. }
    destruct (c =? dquote)%N.
    { destruct (string_chars r) as [[t rest]|] eqn:Et;
        [|no_value].
      apply string_chars_length in Et.
      split; [discriminate|]. intros a r0 H. inversion H; subst. lia. }
    destruct ((c =? ch "-")%N || is_digit c).
    { destruct (lex_number (c :: r)) as [[lit rest]|] eqn:En;
        [|no_value].
      apply lex_number_length in En. simpl in En.
      split; [discriminate|]. intros a r0 H. inversion H; subst. lia. }
    destruct (parse_literal_length (c :: r)) as [Hf Hl].
    split; [exact Hf|]. intros a r0 H. apply Hl in H. simpl in H. lia.
  - destruct (IHv s ltac:(lia)) as [Hf Hl].
    destruct (parse_value fuel s) as [v r| |]; simpl;
      [|no_value|contradiction].
    specialize (Hl _ _ eq_refl).
    pose proof (skip_ws_length r) as Hr.
    destruct (skip_ws r) as [|c r'] eqn:Er; [no_value|].
    simpl in Hr. destruct (c =? ch ",")%N.
    + destruct (IHe r' ltac:(lia)) as [Hf' Hl'].
      destruct (parse_elements fuel r') as [vs rest| |]; simpl;
        [|no_value|contradiction].
      split; [discriminate|]. intros a r0 H. inversion H; subst.
      specialize (Hl' _ _ eq_refl). lia.
    + destruct (c =? ch "]")%N; [|no_value].
      split; [discriminate|]. intros a r0 H. inversion H; subst. lia.
  - pose proof (skip_ws_length s) as Hws.
    destruct (skip_ws s) as [|q r] eqn:Es; [no_value|].
    simpl in Hws.
    destruct (q =? dquote)%N; [|no_value].
    destruct (string_chars r) as [[k r1]|] eqn:Ek;
      [|no_value].
    apply string_chars_length in Ek.
    pose proof (skip_ws_length r1) as Hr1.
    destruct (skip_ws r1) as [|colon r2] eqn:Er1; [no_value|].
    simpl in Hr1.
    destruct (colon =? ch ":")%N; [|no_value].
    destruct (IHv r2 ltac:(lia)) as [Hf Hl].
    destruct (parse_value fuel r2) as [v r3| |]; simpl;
      [|no_value|contradiction].
    specialize (Hl _ _ eq_refl).
    pose proof (skip_ws_length r3) as Hr3.
    destruct (skip_ws r3) as [|c r4] eqn:Er3; [no_value|].
    simpl in Hr3. destruct (c =? ch ",")%N.
    + destruct (IHm r4 ltac:(lia)) as [Hf' Hl'].
      destruct (parse_members fuel r4) as [ms rest| |]; simpl;
        [|no_value|contradiction].
      split; [discriminate|]. intros a r0 H. inversion H; subst.
      specialize (Hl' _ _ eq_refl). lia.
    + destruct (c =? ch "}")%N; [|no_value].
      split; [discriminate|]. intros a r0 H. inversion H; subst. lia.
Qed.

(** [JSON_parse] never runs out of fuel: a [SyntaxError] is a verdict on the
    text. *)
Lemma parse_value_fuel (text : jsstring) :
  parse_value (2 * length text + 1) text <> OutOfFuel.
Proof. apply (proj1 (parse_fuel _)). lia. Qed.

(** ** Strings survive [JSON.stringify] and [JSON.parse] *)

Lemma hex_digit_hex_char (n : N) :
  (n < 16)%N -> hex_digit (hex_char n) = Some n.
Proof.
  intros H.
  destruct n as [|p]; [reflexivity|].
  do 4 (destruct p as [p|p|]; try reflexivity); lia.
Qed.

Lemma hex4_unicode_escape (c : N) :
  (c < 65536)%N ->
  hex4 (hex_char (c / 4096 mod 16)) (hex_char (c / 256 mod 16))
    (hex_char (c / 16 mod 16)) (hex_char (c mod 16)) = Some c.
Proof.
  intros H. unfold hex4.
  rewrite !hex_digit_hex_char by (apply N.mod_lt; discriminate).
  f_equal. zify. Z.to_euclidean_division_equations. lia.
Qed.

Lemma string_chars_escape (c : N) (s : jsstring) :
  (c < 65536)%N ->
  string_chars (unicode_escape c ++ s)
  = match string_chars s with
    | Some (t, rest) => Some (c :: t, rest)
    | None => None
    end.
Proof.
  intros H. unfold unicode_escape.
  cbn [app string_chars].
  change (ch "\" =? dquote)%N with false.
  change (ch "\" =? ch "\")%N with true.
  change (ch "u" =? ch "u")%N with true.
  cbv iota. rewrite hex4_unicode_escape by exact H. reflexivity.
Qed.

Lemma string_chars_literal (c : N) (s : jsstring) :
  (32 <= c)%N -> c <> dquote -> c <> ch "\" ->
  string_chars (c :: s)
  = match string_chars s with
    | Some (t, rest) => Some (c :: t, rest)
    | None => None
    end.
Proof.
  intros H32 Hq Hb. cbn [string_chars].
  apply N.eqb_neq in Hq, Hb. apply N.ltb_ge in H32.
  rewrite Hq, Hb, H32. reflexivity.
Qed.

Lemma string_chars_quote_unit (c : N) (s : jsstring) :
  is_high_surrogate c = false ->
  string_chars (quote_unit c ++ s)
  = match string_chars s with
    | Some (t, rest) => Some (c :: t, rest)
    | None => None
    end.
Proof.
  intros Hhigh. unfold quote_unit.
  repeat match goal with
         | |- context [if (c =? ?k)%N then _ else _] =>
             destruct (N.eqb_spec c k) as [->|?]; [reflexivity|]
         end.
  destruct ((c <? 32)%N || is_low_surrogate c) eqn:E.
  - apply string_chars_escape.
    apply orb_true_iff in E as [E|E].
    + apply N.ltb_lt in E. lia.
    + unfold is_low_surrogate in E. apply andb_true_iff in E as [_ E].
      apply N.leb_le in E. lia.
  - apply orb_false_elim in E as [E _]. apply N.ltb_ge in E.
    apply string_chars_literal; assumption.
Qed.

Lemma string_chars_quote_chars (s rest : jsstring) :
  string_chars (quote_chars s ++ dquote :: rest) = Some (s, rest).
Proof.
  induction s as [s IH] using (induction_ltof1 _ (@length N)).
  unfold ltof in IH. destruct s as [|c r]; [reflexivity|].
  cbn [quote_chars]. destruct (is_high_surrogate c) eqn:Hc.
  - assert (32 <= c /\ c <> dquote /\ c <> ch "\" /\ c < 65536)%N
      as (H32 & Hq & Hb & H16).
    { unfold is_high_surrogate in Hc. apply andb_true_iff in Hc as [H1 H2].
      apply N.leb_le in H1, H2. unfold dquote, ch. simpl. lia. }
    destruct r as [|d r'].
    + rewrite string_chars_escape by exact H16. reflexivity.
    + destruct (is_low_surrogate d) eqn:Hd.
      * assert (32 <= d /\ d <> dquote /\ d <> ch "\")%N as (H32' & Hq' & Hb').
        { unfold is_low_surrogate in Hd. apply andb_true_iff in Hd as [H1 H2].
          apply N.leb_le in H1, H2. unfold dquote, ch. simpl. lia. }
        cbn [app]. rewrite !string_chars_literal by assumption.
        rewrite IH by (simpl; lia). reflexivity.
      * rewrite <- app_assoc, string_chars_escape by exact H16.
        rewrite IH by (simpl; lia). reflexivity.
  - rewrite <- app_assoc, string_chars_quote_unit by exact Hc.
    rewrite IH by (simpl; lia). reflexivity.
Qed.

(** A string survives [JSON.stringify] followed by [JSON.parse]. *)
Lemma JSON_parse_quote (s : jsstring) : JSON_parse (quote s) = Ok (VStr s).
Proof.
  unfold JSON_parse, quote.
  replace (2 * length (dquote :: quote_chars s ++ [dquote]) + 1)
    with (S (2 * length (dquote :: quote_chars s ++ [dquote])))
    by lia.
  cbn [parse_value skip_ws]. 
  change (is_json_ws dquote) with false. cbv iota.
  change (dquote =? ch "{")%N with false.
  change (dquote =? ch "[")%N with false.
  change (dquote =? dquote)%N with true.
  cbv iota. rewrite string_chars_quote_chars. reflexivity.
Qed.

Lemma parse_value_quote (fuel : nat) (s rest : jsstring) :
  parse_value (S fuel) (quote s ++ rest) = Parsed (VStr s) rest.
Proof.
  unfold quote. cbn [parse_value skip_ws app].
  change (is_json_ws dquote) with false. cbv iota.
  change (dquote =? ch "{")%N with false.
  change (dquote =? ch "[")%N with false.
  change (dquote =? dquote)%N with true.
  cbv iota. rewrite <- app_assoc. cbn [app].
  rewrite string_chars_quote_chars. reflexivity.
Qed.

Lemma parse_value_object (fuel : nat) (s : jsstring) :
  parse_value (S fuel) (ch "{" :: dquote :: s)
  = parsed_bind (parse_members fuel (dquote :: s))
      (fun ms rest => Parsed (object_of ms) rest).
Proof. reflexivity. Qed.

Lemma parse_members_last (fuel : nat) (k s : jsstring) :
  parse_members (S (S fuel))
    (dquote :: quote_chars k ++ dquote :: ch ":" :: quote s ++ [ch "}"])
  = Parsed [(k, VStr s)] [].
Proof.
  cbn [parse_members].
  change (skip_ws (dquote :: ?x)) with (dquote :: x).
  change (dquote =? dquote)%N with true. cbv iota.
  rewrite string_chars_quote_chars.
  change (skip_ws (ch ":" :: ?x)) with (ch ":" :: x).
  change (ch ":" =? ch ":")%N with true. cbv iota.
  rewrite parse_value_quote. reflexivity.
Qed.

(** An object with one string property survives [JSON.stringify] followed
    by [JSON.parse]. *)
Lemma JSON_parse_string_property (k s : jsstring) :
  JSON_parse (JSON_stringify (VObj [(k, VStr s)])) = Ok (VObj [(k, VStr s)]).
Proof.
  unfold JSON_parse. cbn [JSON_stringify map join_comma fst snd].
  set (text := ch "{" :: (quote k ++ ch ":" :: quote s) ++ [ch "}"]).
  assert (text = ch "{" :: dquote :: quote_chars k
                 ++ dquote :: ch ":" :: quote s ++ [ch "}"]) as Etext.
  { subst text. unfold quote at 1. cbn [app].
    rewrite <- !app_assoc. reflexivity. }
  assert (exists n, 2 * length text + 1 = S (S (S n))) as [n ->].
  { exists (2 * length text - 2). subst text. simpl. lia. }
  rewrite Etext, parse_value_object, parse_members_last. reflexivity.
Qed.

(** ** The router *)

Section Router.
Import Worker.
Variables (env : Env) (req : Request) (rt : Runtime).

Lemma fetch_ws :
  pathname req = str "/ws" -> fetch env req rt = handleWebSocket env req rt.
Proof. intros H. unfold fetch. rewrite H. reflexivity. Qed.

Lemma fetch_assets :
  pathname req <> str "/ws" ->
  startsWith (pathname req) (str "/api/") = false ->
  fetch env req rt = (ASSETS_fetch env req, rt).
Proof.
  intros Hws Hapi. unfold fetch.
  apply streq_neq in Hws. rewrite Hws, Hapi, orb_true_r. reflexivity.
Qed.

Lemma fetch_api :
  startsWith (pathname req) (str "/api/") = true ->
  fetch env req rt =
    if streq (pathname req) (str "/api/chat") then
      if streq (method req) (str "POST") then (handleChatRequest env req, rt)
      else (text_response (str "Method not allowed") 405 [], rt)
    else (text_response (str "Not found") 404 [], rt).
Proof.
  intros Hapi. unfold fetch.
  destruct (streq (pathname req) (str "/ws")) eqn:Hws.
  { apply streq_eq in Hws. rewrite Hws in Hapi. discriminate. }
  destruct (streq (pathname req) (str "/")) eqn:Hroot.
  { apply streq_eq in Hroot. rewrite Hroot in Hapi. discriminate. }
  rewrite Hapi. reflexivity.
Qed.

End Router.

(** C3, as the code has it. A request on [/api/chat] with a method other
    than POST is answered with status 405. Status 404 is the answer to every
    path under [/api/] other than [/api/chat]. A path that is not under
    [/api/] and is not [/ws], such as [/unknown], is not answered by the
    router: the request goes to the asset store and its response is returned
    as it is. *)
Theorem router_status_codes (env : Worker.Env) (req : Worker.Request)
  (rt : Worker.Runtime) :
  (Worker.pathname req = str "/api/chat" ->
   Worker.method req <> str "POST" ->
   Worker.fetch env req rt
   = (Worker.text_response (str "Method not allowed") 405 [], rt)
   /\ Worker.status (Worker.fetch env req rt).1 = 405%N)
  /\ (startsWith (Worker.pathname req) (str "/api/") = true ->
      Worker.pathname req <> str "/api/chat" ->
      Worker.fetch env req rt
      = (Worker.text_response (str "Not found") 404 [], rt)
      /\ Worker.status (Worker.fetch env req rt).1 = 404%N)
  /\ (Worker.pathname req <> str "/ws" ->
      startsWith (Worker.pathname req) (str "/api/") = false ->
      Worker.fetch env req rt = (Worker.ASSETS_fetch env req, rt)).
Proof.
  split; [|split].
  - intros Hpath Hmethod.
    assert (Worker.fetch env req rt
            = (Worker.text_response (str "Method not allowed") 405 [], rt)) as E.
    { rewrite fetch_api by (rewrite Hpath; reflexivity).
      rewrite Hpath, streq_refl.
      apply streq_neq in Hmethod. rewrite Hmethod. reflexivity. }
    split; [exact E | rewrite E; reflexivity].
  - intros Hapi Hpath.
    assert (Worker.fetch env req rt
            = (Worker.text_response (str "Not found") 404 [], rt)) as E.
    { rewrite fetch_api by exact Hapi.
      apply streq_neq in Hpath. rewrite Hpath. reflexivity. }
    split; [exact E | rewrite E; reflexivity].
  - apply fetch_assets.
Qed.

(** GET /api/chat is answered 405 and GET /api/unknown is answered 404. *)
Lemma router_status_codes_witness :
  Worker.status
    (Worker.fetch (Stub.env (Ok None)) (Stub.request "GET" "/api/chat" [] None)
       Stub.no_pairs).1 = 405%N
  /\ Worker.status
       (Worker.fetch (Stub.env (Ok None))
          (Stub.request "GET" "/api/unknown" [] None) Stub.no_pairs).1 = 404%N.
Proof.
  split.
  - apply (proj1 (router_status_codes (Stub.env (Ok None))
                    (Stub.request "GET" "/api/chat" [] None) Stub.no_pairs));
      [reflexivity | discriminate].
  - apply (proj1 (proj2 (router_status_codes (Stub.env (Ok None))
                    (Stub.request "GET" "/api/unknown" [] None) Stub.no_pairs)));
      [reflexivity | discriminate].
Defined.

(** C3 as the spec states it fails: GET /unknown is handed to the asset
    store, and with a store that serves the page for every path the response
    has status 200, not 404. *)
Lemma get_unknown_is_served_by_assets :
  Worker.fetch (Stub.env (Ok None)) (Stub.request "GET" "/unknown" [] None)
    Stub.no_pairs
  = (Stub.page, Stub.no_pairs)
  /\ Worker.status
       (Worker.fetch (Stub.env (Ok None))
          (Stub.request "GET" "/unknown" [] None) Stub.no_pairs).1 = 200%N.
Proof. split; reflexivity. Qed.

(** ** The WebSocket upgrade *)

(** C8. On [/ws], a request whose Upgrade header is not [websocket] (or is
    missing) is answered with status 426, carries no socket, and leaves the
    runtime as it was: no pair is created. With [Upgrade: websocket] the
    answer has status 101 and carries the client end of a pair created for
    this request, whose server end is accepted and listening. *)
Theorem websocket_upgrade (env : Worker.Env) (req : Worker.Request)
  (rt : Worker.Runtime) :
  Worker.pathname req = str "/ws" ->
  (Worker.headers_get (Worker.headers req) (str "Upgrade")
   <> Some (str "websocket") ->
   Worker.status (Worker.fetch env req rt).1 = 426%N
   /\ Worker.webSocket (Worker.fetch env req rt).1 = None
   /\ (Worker.fetch env req rt).2 = rt)
  /\ (Worker.headers_get (Worker.headers req) (str "Upgrade")
      = Some (str "websocket") ->
      Worker.status (Worker.fetch env req rt).1 = 101%N
      /\ Worker.webSocket (Worker.fetch env req rt).1
         = Some (length (Worker.pairs rt))
      /\ Worker.pairs (Worker.fetch env req rt).2
         = Worker.pairs rt
           ++ [{| Worker.accepted := true; Worker.listening := true;
                  Worker.closed := false; Worker.sent := [] |}]).
Proof.
  intros Hpath. rewrite fetch_ws by exact Hpath. unfold Worker.handleWebSocket.
  split.
  - intros Hup.
    destruct (Worker.headers_get (Worker.headers req) (str "Upgrade")) as [v|].
    + assert (v <> str "websocket") as Hv by congruence.
      apply streq_neq in Hv. rewrite Hv. simpl. auto.
    + simpl. auto.
  - intros Hup. rewrite Hup, streq_refl. simpl. auto.
Qed.

(** A GET on /ws without the header, then one with it. *)
Lemma websocket_upgrade_witness :
  Worker.status
    (Worker.fetch (Stub.env (Ok None)) (Stub.request "GET" "/ws" [] None)
       Stub.no_pairs).1 = 426%N
  /\ Worker.status
       (Worker.fetch (Stub.env (Ok None))
          (Stub.request "GET" "/ws" [(str "upgrade", str "websocket")] None)
          Stub.no_pairs).1 = 101%N.
Proof.
  split.
  - apply (proj1 (websocket_upgrade (Stub.env (Ok None))
                    (Stub.request "GET" "/ws" [] None) Stub.no_pairs eq_refl)).
    discriminate.
  - apply (proj2 (websocket_upgrade (Stub.env (Ok None))
                    (Stub.request "GET" "/ws" [(str "upgrade", str "websocket")]
                       None)
                    Stub.no_pairs eq_refl)).
    reflexivity.
Defined.

(** ** The system prompt *)

Lemma is_system_value (v : value) :
  v <> VNull -> Worker.is_system v = Ok (role_is_system v).
Proof. intros H. destruct v; try reflexivity. contradiction. Qed.

Lemma some_system_values (msgs : list value) :
  Forall (fun v => v <> VNull) msgs ->
  Worker.some_system msgs = Ok (has_system msgs).
Proof.
  induction 1 as [|v msgs Hv _ IH]; simpl; [reflexivity|].
  rewrite is_system_value by exact Hv. simpl.
  destruct (role_is_system v); [reflexivity | exact IH].
Qed.

Lemma message_not_null (msgs : list value) :
  Forall is_message msgs -> Forall (fun v => v <> VNull) msgs.
Proof.
  intros H. eapply Forall_impl; [exact H|].
  intros v [props ->]. discriminate.
Qed.

Lemma add_system_prompt_values (msgs : list value) :
  Forall (fun v => v <> VNull) msgs ->
  Worker.add_system_prompt (VArr msgs)
  = Ok (if has_system msgs then msgs else Worker.system_message :: msgs).
Proof.
  intros H. unfold Worker.add_system_prompt.
  rewrite some_system_values by exact H. reflexivity.
Qed.

(** An entry that is [null] before any system entry makes the test throw:
    such an array is not a list of messages. *)
Lemma null_entry_throws (before after : list value) :
  Forall is_message before -> has_system before = false ->
  Worker.add_system_prompt (VArr (before ++ VNull :: after)) = Throw TypeError.
Proof.
  intros Hm Hs. unfold Worker.add_system_prompt.
  assert (Worker.some_system (before ++ VNull :: after) = Throw TypeError) as ->;
    [|reflexivity].
  induction Hm as [|v before Hv _ IH]; [reflexivity|].
  simpl in Hs. apply orb_false_elim in Hs as [Hv' Hs].
  change ((v :: before) ++ VNull :: after)
    with (v :: (before ++ VNull :: after)).
  cbn [Worker.some_system].
  rewrite is_system_value by (destruct Hv as [? ->]; discriminate).
  rewrite Hv'. exact (IH Hs).
Qed.

Lemma count_system_none (msgs : list value) :
  has_system msgs = false -> List.filter role_is_system msgs = [].
Proof.
  induction msgs as [|v msgs IH]; simpl; [reflexivity|].
  intros H. apply orb_false_elim in H as [-> H]. exact (IH H).
Qed.

(** ** What the two handlers do with the prepared list *)

Section Forwarding.
Import Worker.
Variable env : Env.

Lemma destructure_messages_field (payload v : value) :
  get payload (str "messages") = Ok (Some v) ->
  destructure_messages payload = Ok v.
Proof. intros H. unfold destructure_messages. rewrite H. reflexivity. Qed.

Lemma destructure_messages_default (payload : value) :
  get payload (str "messages") = Ok None ->
  destructure_messages payload = Ok (VArr []).
Proof. intros H. unfold destructure_messages. rewrite H. reflexivity. Qed.

Lemma handleChatRequest_forwards (req : Request) (payload messages : value)
  (forwarded : list value) :
  request_json req = Ok payload ->
  destructure_messages payload = Ok messages ->
  add_system_prompt messages = Ok forwarded ->
  handleChatRequest env req
  = try_catch (AI_run_raw env MODEL_ID forwarded 1024) error_response.
Proof.
  intros H1 H2 H3. unfold handleChatRequest. rewrite H1. simpl.
  rewrite H2. simpl. rewrite H3. reflexivity.
Qed.

Lemma relay_forwards (data : MessageData) (server : ServerSocket)
  (payload messages : value) (forwarded : list value) :
  JSON_parse (data_string data) = Ok payload ->
  destructure_messages payload = Ok messages ->
  add_system_prompt messages = Ok forwarded ->
  relay env data server
  = let* aiResponse := AI_run env MODEL_ID forwarded 1024 in
    Ok (send (response_frame (extract_text aiResponse)) server).
Proof.
  intros H1 H2 H3. unfold relay. rewrite H1. simpl.
  rewrite H2. simpl. rewrite H3. reflexivity.
Qed.

End Forwarding.

(** C1. For a list of messages [msgs] with no system entry the list handed
    to the inference API is the default system message followed by [msgs]
    (one system entry, the others in their order); with a system entry
    anywhere it is [msgs] itself. This holds on the HTTP chat path and on the
    WebSocket path. *)
Theorem system_prompt_added_once (msgs : list value) :
  Forall is_message msgs ->
  let forwarded :=
    if has_system msgs then msgs else Worker.system_message :: msgs in
  Worker.add_system_prompt (VArr msgs) = Ok forwarded
  /\ (has_system msgs = false ->
      List.filter role_is_system forwarded = [Worker.system_message])
  /\ (forall env req payload,
        Worker.request_json req = Ok payload ->
        get payload (str "messages") = Ok (Some (VArr msgs)) ->
        Worker.handleChatRequest env req
        = try_catch (Worker.AI_run_raw env Worker.MODEL_ID forwarded 1024)
            Worker.error_response)
  /\ (forall env data server payload,
        JSON_parse (Worker.data_string data) = Ok payload ->
        get payload (str "messages") = Ok (Some (VArr msgs)) ->
        Worker.onMessage env data server
        = try_catch
            (let* aiResponse :=
               Worker.AI_run env Worker.MODEL_ID forwarded 1024 in
             Ok (Worker.send
                   (Worker.response_frame (Worker.extract_text aiResponse))
                   server))
            (Worker.send (Worker.response_frame Worker.apology) server)).
Proof.
  intros Hm forwarded.
  pose proof (add_system_prompt_values msgs (message_not_null msgs Hm)) as Hadd.
  fold forwarded in Hadd.
  split; [exact Hadd|]. split; [|split].
  - intros Hs. subst forwarded. rewrite Hs. simpl.
    rewrite count_system_none by exact Hs. reflexivity.
  - intros env req payload Hjson Hfield.
    eapply handleChatRequest_forwards; eauto using destructure_messages_field.
  - intros env data server payload Hjson Hfield. unfold Worker.onMessage.
    f_equal.
    eapply relay_forwards; eauto using destructure_messages_field.
Qed.

Lemma user_hi_messages : Forall is_message [Stub.user_hi].
Proof. repeat constructor. eexists. reflexivity. Defined.

(** POST /api/chat with one user turn: the inference API receives the
    system message and the user turn. *)
Lemma system_prompt_added_once_witness :
  Worker.add_system_prompt (VArr [Stub.user_hi])
  = Ok [Worker.system_message; Stub.user_hi]
  /\ Worker.handleChatRequest (Stub.env (Ok None))
       (Stub.request "POST" "/api/chat" [] (Some (json_bytes Stub.hi_payload)))
     = Stub.streamed.
Proof.
  destruct (system_prompt_added_once [Stub.user_hi] user_hi_messages)
    as (Hadd & _ & Hhttp & _).
  split; [exact Hadd|].
  rewrite (Hhttp (Stub.env (Ok None))
             (Stub.request "POST" "/api/chat" [] (Some (json_bytes Stub.hi_payload)))
             (VObj [(str "messages", VArr [Stub.user_hi])]));
    reflexivity.
Defined.

(** ** The body of a chat request *)

Lemma request_json_no_body (req : Worker.Request) :
  Worker.body req = None \/ Worker.body req = Some [] ->
  Worker.request_json req = Throw SyntaxError.
Proof. intros [H|H]; unfold Worker.request_json; rewrite H; reflexivity. Qed.

Lemma handleChatRequest_throws (env : Worker.Env) (req : Worker.Request)
  (e : exn) :
  Worker.request_json req = Throw e ->
  Worker.handleChatRequest env req = Worker.error_response.
Proof. intros H. unfold Worker.handleChatRequest. rewrite H. reflexivity. Qed.

Lemma handleChatRequest_null (env : Worker.Env) (req : Worker.Request) :
  Worker.request_json req = Ok VNull ->
  Worker.handleChatRequest env req = Worker.error_response.
Proof. intros H. unfold Worker.handleChatRequest. rewrite H. reflexivity. Qed.

(** A parsed body other than [null] that has no property [messages] of its
    own reads as [undefined] there. *)
Lemma get_messages_absent (payload : value) :
  payload <> VNull ->
  (forall props, payload = VObj props -> assoc (str "messages") props = None) ->
  get payload (str "messages") = Ok None.
Proof.
  intros Hnull Hprops. destruct payload; try reflexivity.
  - contradiction.
  - simpl. rewrite (Hprops _ eq_refl). reflexivity.
Qed.

(** C2, as the code has it. A body that is absent, empty or not JSON makes
    [request.json()] throw, and the body [null] makes the destructuring
    throw; the handler answers with status 500 and the body
    [{"error":"Failed to process request"}], whatever the inference API would
    have answered. The default [messages = []] is for a body that is JSON,
    is not [null] and has no [messages] field: the inference API then
    receives the system message alone; its response is the handler's, and
    where the call throws the handler answers with the same status 500. *)
Theorem chat_request_body (env : Worker.Env) (req : Worker.Request) :
  (Worker.body req = None \/ Worker.body req = Some [] ->
   Worker.request_json req = Throw SyntaxError)
  /\ (forall e, Worker.request_json req = Throw e ->
        Worker.handleChatRequest env req = Worker.error_response)
  /\ (Worker.request_json req = Ok VNull ->
      Worker.handleChatRequest env req = Worker.error_response)
  /\ Worker.status Worker.error_response = 500%N
  /\ Worker.response_body Worker.error_response
     = Some (json_text "{'error':'Failed to process request'}")
  /\ (forall payload,
        Worker.request_json req = Ok payload ->
        payload <> VNull ->
        (forall props,
           payload = VObj props -> assoc (str "messages") props = None) ->
        Worker.destructure_messages payload = Ok (VArr [])
        /\ Worker.add_system_prompt (VArr []) = Ok [Worker.system_message]
        /\ Worker.handleChatRequest env req
           = try_catch
               (Worker.AI_run_raw env Worker.MODEL_ID [Worker.system_message] 1024)
               Worker.error_response
        /\ (forall response,
              Worker.AI_run_raw env Worker.MODEL_ID [Worker.system_message] 1024
              = Ok response ->
              Worker.handleChatRequest env req = response)
        /\ (forall e,
              Worker.AI_run_raw env Worker.MODEL_ID [Worker.system_message] 1024
              = Throw e ->
              Worker.handleChatRequest env req = Worker.error_response)).
Proof.
  split; [apply request_json_no_body|].
  split; [apply handleChatRequest_throws|].
  split; [apply handleChatRequest_null|].
  split; [reflexivity|]. split; [reflexivity|].
  intros payload Hjson Hnull Hprops.
  pose proof (get_messages_absent payload Hnull Hprops) as Hfield.
  assert (Worker.handleChatRequest env req
          = try_catch
              (Worker.AI_run_raw env Worker.MODEL_ID [Worker.system_message] 1024)
              Worker.error_response) as Hrun.
  { eapply handleChatRequest_forwards;
      eauto using destructure_messages_default. }
  split; [apply destructure_messages_default; exact Hfield|].
  split; [reflexivity|]. split; [exact Hrun|]. split.
  - intros response Hok. rewrite Hrun, Hok. reflexivity.
  - intros e Hthrow. rewrite Hrun, Hthrow. reflexivity.
Qed.

Lemma empty_object_has_no_messages (props : list (jsstring * value)) :
  VObj [] = VObj props -> assoc (str "messages") props = None.
Proof. intros H. inversion H. reflexivity. Defined.

(** POST /api/chat with the body [{}]: the response is the inference API's.
    With the body [null]: status 500. *)
Lemma chat_request_body_witness :
  Worker.handleChatRequest (Stub.env (Ok None))
    (Stub.request "POST" "/api/chat" [] (Some (json_bytes "{}")))
  = Stub.streamed
  /\ Worker.status
       (Worker.handleChatRequest (Stub.env (Ok None))
          (Stub.request "POST" "/api/chat" [] (Some (json_bytes "null"))))
     = 500%N.
Proof.
  split.
  - apply (proj1 (proj2 (proj2 (proj2
      (proj2 (proj2 (proj2 (proj2 (proj2
         (chat_request_body (Stub.env (Ok None))
            (Stub.request "POST" "/api/chat" []
               (Some (json_bytes "{}"))))))))
         (VObj []) eq_refl ltac:(discriminate)
         empty_object_has_no_messages))))
      Stub.streamed eq_refl).
  - rewrite (proj1 (proj2 (proj2
      (chat_request_body (Stub.env (Ok None))
         (Stub.request "POST" "/api/chat" []
            (Some (json_bytes "null"))))))
      eq_refl).
    reflexivity.
Defined.

(** C2 as the spec states it fails: a POST without a body, with an empty
    body and with a body that is not JSON each get status 500, with an
    inference API that would have answered 200. *)
Lemma bad_body_is_answered_500 :
  Worker.status
    (Worker.handleChatRequest (Stub.env (Ok None))
       (Stub.request "POST" "/api/chat" [] None)) = 500%N
  /\ Worker.status
       (Worker.handleChatRequest (Stub.env (Ok None))
          (Stub.request "POST" "/api/chat" [] (Some []))) = 500%N
  /\ Worker.status
       (Worker.handleChatRequest (Stub.env (Ok None))
          (Stub.request "POST" "/api/chat" []
             (Some (list_byte_of_string "hello")))) = 500%N
  /\ Worker.status
       (Worker.fetch (Stub.env (Ok None))
          (Stub.request "POST" "/api/chat" [] None) Stub.no_pairs).1 = 500%N.
Proof. repeat split; reflexivity. Qed.

(** ** The reply on the WebSocket *)

(** Every message event is answered with one frame, and the frame does not
    depend on the socket. *)
Lemma onMessage_sends_one (env : Worker.Env) (data : Worker.MessageData)
  (server : Worker.ServerSocket) :
  Worker.onMessage env data server
  = Worker.send (reply_frame env data) server.
Proof.
  unfold Worker.onMessage, Worker.relay, reply_frame.
  destruct (JSON_parse _) as [payload|]; [simpl|reflexivity].
  destruct (Worker.destructure_messages _) as [messages|]; [simpl|reflexivity].
  destruct (Worker.add_system_prompt _) as [forwarded|]; [simpl|reflexivity].
  destruct (Worker.AI_run _ _ _ _); reflexivity.
Qed.

Lemma relay_throws_frame (env : Worker.Env) (data : Worker.MessageData)
  (server : Worker.ServerSocket) (e : exn) :
  Worker.relay env data server = Throw e ->
  reply_frame env data = Worker.response_frame Worker.apology.
Proof.
  unfold Worker.relay, reply_frame.
  destruct (JSON_parse _) as [payload|]; [simpl|reflexivity].
  destruct (Worker.destructure_messages _) as [messages|]; [simpl|reflexivity].
  destruct (Worker.add_system_prompt _) as [forwarded|]; [simpl|reflexivity].
  destruct (Worker.AI_run _ _ _ _); [discriminate|reflexivity].
Qed.

(** The two failures the spec names. *)
Lemma relay_bad_json (env : Worker.Env) (data : Worker.MessageData)
  (server : Worker.ServerSocket) (e : exn) :
  JSON_parse (Worker.data_string data) = Throw e ->
  Worker.relay env data server = Throw e.
Proof. intros H. unfold Worker.relay. rewrite H. reflexivity. Qed.

Lemma relay_inference_error (env : Worker.Env) (data : Worker.MessageData)
  (server : Worker.ServerSocket) (payload messages : value)
  (forwarded : list value) (e : exn) :
  JSON_parse (Worker.data_string data) = Ok payload ->
  Worker.destructure_messages payload = Ok messages ->
  Worker.add_system_prompt messages = Ok forwarded ->
  Worker.AI_run env Worker.MODEL_ID forwarded 1024 = Throw e ->
  Worker.relay env data server = Throw e.
Proof.
  intros H1 H2 H3 H4. erewrite relay_forwards by eassumption.
  rewrite H4. reflexivity.
Qed.

Lemma extract_text_placeholder (aiResponse : option value) :
  (forall s, aiResponse <> Some (VStr s)) ->
  (forall props s,
     aiResponse = Some (VObj props) ->
     assoc (str "response") props <> Some (VStr s)
     /\ assoc (str "result") props <> Some (VStr s)) ->
  Worker.extract_text aiResponse = str "[No response]".
Proof.
  intros Hstr Hobj. destruct aiResponse as [[| | |s| |props]|]; try reflexivity.
  - destruct (Hstr s). reflexivity.
  - unfold Worker.extract_text, Worker.string_property.
    destruct (assoc (str "response") props) as [[| | |s| |]|] eqn:E1;
      destruct (assoc (str "result") props) as [[| | |s'| |]|] eqn:E2;
      try reflexivity; exfalso;
      first [ eapply (proj1 (Hobj props _ eq_refl)); eassumption
            | eapply (proj2 (Hobj props _ eq_refl)); eassumption ].
Qed.

(** C4. When the inference call of a message event returns [aiResponse], the
    listener sends one frame, the JSON text of [{ response: text }] (a text
    that [JSON.parse] reads back as that object), where [text] is
    [aiResponse] if that is a string; else its [response] field if it is an
    object with a string there; else its [result] field if that is a string;
    else "[No response]". *)
Theorem websocket_reply_text (env : Worker.Env) (data : Worker.MessageData)
  (server : Worker.ServerSocket) (payload messages : value)
  (forwarded : list value) (aiResponse : option value) :
  JSON_parse (Worker.data_string data) = Ok payload ->
  Worker.destructure_messages payload = Ok messages ->
  Worker.add_system_prompt messages = Ok forwarded ->
  Worker.AI_run env Worker.MODEL_ID forwarded 1024 = Ok aiResponse ->
  let text := Worker.extract_text aiResponse in
  Worker.sent (Worker.onMessage env data server)
  = Worker.sent server ++ [JSON_stringify (VObj [(str "response", VStr text)])]
  /\ JSON_parse (JSON_stringify (VObj [(str "response", VStr text)]))
     = Ok (VObj [(str "response", VStr text)])
  /\ (forall s, aiResponse = Some (VStr s) -> text = s)
  /\ (forall props s,
        aiResponse = Some (VObj props) ->
        assoc (str "response") props = Some (VStr s) -> text = s)
  /\ (forall props s,
        aiResponse = Some (VObj props) ->
        (forall s', assoc (str "response") props <> Some (VStr s')) ->
        assoc (str "result") props = Some (VStr s) -> text = s)
  /\ ((forall s, aiResponse <> Some (VStr s)) ->
      (forall props s,
         aiResponse = Some (VObj props) ->
         assoc (str "response") props <> Some (VStr s)
         /\ assoc (str "result") props <> Some (VStr s)) ->
      text = str "[No response]").
Proof.
  intros H1 H2 H3 H4 text. split; [|split; [|split; [|split; [|split]]]].
  - unfold Worker.onMessage.
    erewrite relay_forwards by eassumption. rewrite H4. reflexivity.
  - apply JSON_parse_string_property.
  - intros s ->. reflexivity.
  - intros props s -> E. subst text.
    unfold Worker.extract_text, Worker.string_property. rewrite E. reflexivity.
  - intros props s -> Hno E. subst text.
    unfold Worker.extract_text, Worker.string_property. rewrite E.
    destruct (assoc (str "response") props) as [[| | |s'| |]|] eqn:E1;
      try reflexivity.
    destruct (Hno s'). reflexivity.
  - apply extract_text_placeholder.
Qed.

(** The round trip of the spec: the frame for one user turn "hi", with an
    inference API that returns the string "hello". *)
Lemma websocket_reply_text_witness :
  Worker.sent
    (Worker.onMessage (Stub.env (Ok (Some (VStr (str "hello")))))
       (Worker.TextData (json_text Stub.hi_payload)) Stub.fresh_socket)
  = [json_text "{'response':'hello'}"].
Proof.
  apply (proj1
    (websocket_reply_text (Stub.env (Ok (Some (VStr (str "hello")))))
       (Worker.TextData (json_text Stub.hi_payload)) Stub.fresh_socket
       (VObj [(str "messages", VArr [Stub.user_hi])]) (VArr [Stub.user_hi])
       [Worker.system_message; Stub.user_hi] (Some (VStr (str "hello")))
       eq_refl eq_refl eq_refl eq_refl)).
Defined.

(** ** Errors on the WebSocket *)

(** C5. When the processing of a message event throws, the listener sends
    the apology frame and nothing else, the socket stays accepted with its
    listener, and the next message event on it is answered with its own
    frame. *)
Theorem websocket_error_frame (env : Worker.Env) (id : nat)
  (data : Worker.MessageData) (rt : Worker.Runtime)
  (server : Worker.ServerSocket) (e : exn) :
  Worker.pairs rt !! id = Some server ->
  Worker.accepted server = true ->
  Worker.listening server = true ->
  Worker.closed server = false ->
  Worker.relay env data server = Throw e ->
  let rt' := Worker.deliver env id data rt in
  Worker.pairs rt' !! id
  = Some {| Worker.accepted := true; Worker.listening := true;
            Worker.closed := false;
            Worker.sent :=
              Worker.sent server
              ++ [json_text "{'response':'Sorry, there was an error processing your request.'}"] |}
  /\ length (Worker.pairs rt') = length (Worker.pairs rt)
  /\ forall env' data',
       Worker.pairs (Worker.deliver env' id data' rt') !! id
       = Some {| Worker.accepted := true; Worker.listening := true;
                 Worker.closed := false;
                 Worker.sent :=
                   Worker.sent server
                   ++ [json_text "{'response':'Sorry, there was an error processing your request.'}";
                       reply_frame env' data'] |}.
Proof.
  intros Hid Hacc Hlis Hcl Hthrow rt'.
  assert (id < length (Worker.pairs rt)) as Hlt by (eapply lookup_lt_Some; eauto).
  assert (Worker.pairs rt' !! id
          = Some {| Worker.accepted := true; Worker.listening := true;
                    Worker.closed := false;
                    Worker.sent :=
                      Worker.sent server
                      ++ [Worker.response_frame Worker.apology] |}) as Hrt'.
  { subst rt'. unfold Worker.deliver. rewrite Hid, Hacc, Hlis, Hcl. simpl.
    rewrite list_lookup_insert_eq by exact Hlt.
    rewrite onMessage_sends_one, (relay_throws_frame _ _ _ _ Hthrow).
    unfold Worker.send. rewrite Hacc, Hlis, Hcl. reflexivity. }
  split; [exact Hrt'|]. split.
  - subst rt'. unfold Worker.deliver. rewrite Hid, Hacc, Hlis, Hcl. simpl.
    apply length_insert.
  - intros env' data'. unfold Worker.deliver at 1. rewrite Hrt'. simpl.
    rewrite list_lookup_insert_eq.
    + rewrite onMessage_sends_one. unfold Worker.send. simpl.
      rewrite <- app_assoc. reflexivity.
    + subst rt'. unfold Worker.deliver. rewrite Hid, Hacc, Hlis, Hcl. simpl.
      rewrite length_insert. exact Hlt.
Qed.

(** A frame that is not JSON, then the user turn "hi" answered "hello": the
    socket carries the apology and then the reply. *)
Lemma websocket_error_frame_witness :
  Worker.pairs
    (Worker.deliver (Stub.env (Ok (Some (VStr (str "hello"))))) 0
       (Worker.TextData (json_text Stub.hi_payload))
       (Worker.deliver (Stub.env (Ok None)) 0 (Worker.TextData (str "hi"))
          {| Worker.pairs := [Stub.fresh_socket] |})) !! 0
  = Some {| Worker.accepted := true; Worker.listening := true;
            Worker.closed := false;
            Worker.sent :=
              [json_text "{'response':'Sorry, there was an error processing your request.'}";
               json_text "{'response':'hello'}"] |}.
Proof.
  apply (proj2 (proj2
    (websocket_error_frame (Stub.env (Ok None)) 0 (Worker.TextData (str "hi"))
       {| Worker.pairs := [Stub.fresh_socket] |} Stub.fresh_socket SyntaxError
       eq_refl eq_refl eq_refl eq_refl eq_refl))
    (Stub.env (Ok (Some (VStr (str "hello")))))
    (Worker.TextData (json_text Stub.hi_payload))).
Defined.

(** ** The client: receiving *)

(** Which values have no string: the objects with a property [toString] of
    their own, and the arrays that hold a value without a string. *)
Lemma to_string_throws_object (props : list (jsstring * value)) :
  to_string_throws (VObj props) = true
  <-> exists v, assoc (str "toString") props = Some v.
Proof.
  simpl. destruct (assoc (str "toString") props) as [v|]; split.
  - intros _. exists v. reflexivity.
  - reflexivity.
  - discriminate.
  - intros [v Hv]. discriminate.
Qed.

Lemma to_string_throws_array (items : list value) :
  to_string_throws (VArr items) = true
  <-> Exists (fun v => to_string_throws v = true) items.
Proof.
  simpl. rewrite existsb_exists, Exists_exists.
  split; intros (v & Hin & Hv); exists v; split; auto;
    apply list_elem_of_In; exact Hin.
Qed.

Lemma to_string_throws_string (text : jsstring) :
  to_string_throws (VStr text) = false.
Proof. reflexivity. Qed.

Section Receive.
Import Client.
Variables (data : jsstring) (s : State).

Lemma onMessage_releases :
  isProcessing (onMessage data s) = false
  /\ typingIndicator_visible (dom (onMessage data s)) = false
  /\ userInput_disabled (dom (onMessage data s)) = false
  /\ sendButton_disabled (dom (onMessage data s)) = false.
Proof. repeat split; reflexivity. Qed.

Lemma onMessage_truthy (payload r : value) :
  JSON_parse data = Ok payload ->
  get payload (str "response") = Ok (Some r) ->
  truthy r = true ->
  to_string_throws r = false ->
  chatHistory (onMessage data s)
  = chatHistory s ++ [chat_message (str "assistant") r]
  /\ chatMessages (dom (onMessage data s))
     = chatMessages (dom s)
       ++ [{| className := str "message assistant-message"; content := r |}].
Proof.
  intros H1 H2 H3 H4. unfold onMessage, receive, addMessageToChat.
  rewrite H1. simpl. rewrite H2. simpl. rewrite H3, H4. simpl.
  split; reflexivity.
Qed.

Lemma onMessage_otherwise :
  (forall payload r,
     JSON_parse data = Ok payload ->
     get payload (str "response") = Ok (Some r) ->
     truthy r = false \/ to_string_throws r = true) ->
  chatHistory (onMessage data s) = chatHistory s
  /\ chatMessages (dom (onMessage data s)) = chatMessages (dom s).
Proof.
  intros H. unfold onMessage, receive, addMessageToChat.
  destruct (JSON_parse data) as [payload|]; [simpl|split; reflexivity].
  destruct (get payload (str "response")) as [[r|]|] eqn:E; simpl;
    try (split; reflexivity).
  destruct (H payload r eq_refl E) as [-> | Hthrows].
  - split; reflexivity.
  - rewrite Hthrows. destruct (truthy r); split; reflexivity.
Qed.

End Receive.

(** C6, as the code has it. On a text frame the client parses the payload
    and, when its [response] field is truthy (a non-empty string, a number
    other than zero, [true], an array or an object) and converts to a string
    without throwing, appends that value to the chat log and to the history.
    A frame that does not parse, a [response] that is missing or falsy such
    as the empty string, and a truthy [response] whose conversion to a
    string throws, such as the object [{"toString":0}] or an array that
    holds it, append nothing to either. In every case the typing indicator
    is hidden, the controls are enabled and [isProcessing] is cleared. *)
Theorem client_receive (data : jsstring) (s : Client.State) :
  let s' := Client.onMessage data s in
  (Client.isProcessing s' = false
   /\ Client.typingIndicator_visible (Client.dom s') = false
   /\ Client.userInput_disabled (Client.dom s') = false
   /\ Client.sendButton_disabled (Client.dom s') = false)
  /\ (forall payload r,
        JSON_parse data = Ok payload ->
        get payload (str "response") = Ok (Some r) ->
        truthy r = true ->
        to_string_throws r = false ->
        Client.chatHistory s'
        = Client.chatHistory s ++ [Client.chat_message (str "assistant") r]
        /\ Client.chatMessages (Client.dom s')
           = Client.chatMessages (Client.dom s)
             ++ [{| Client.className := str "message assistant-message";
                    Client.content := r |}])
  /\ (forall payload r,
        JSON_parse data = Ok payload ->
        get payload (str "response") = Ok (Some r) ->
        to_string_throws r = true ->
        Client.chatHistory s' = Client.chatHistory s
        /\ Client.chatMessages (Client.dom s')
           = Client.chatMessages (Client.dom s))
  /\ ((forall payload r,
         JSON_parse data = Ok payload ->
         get payload (str "response") = Ok (Some r) -> truthy r = false) ->
      Client.chatHistory s' = Client.chatHistory s
      /\ Client.chatMessages (Client.dom s')
         = Client.chatMessages (Client.dom s)).
Proof.
  intros s'. split; [apply onMessage_releases|].
  split; [apply onMessage_truthy|]. split.
  - intros payload r H1 H2 H3. apply onMessage_otherwise.
    intros payload' r' H1' H2'. right. congruence.
  - intros H. apply onMessage_otherwise. intros payload r H1 H2. left. eauto.
Qed.

(** The reply "hello" is appended to the history. *)
Lemma client_receive_witness :
  Client.chatHistory
    (Client.onMessage (json_text "{'response':'hello'}")
       (Client.load Stub.blank_page))
  = [Client.greeting;
     Client.chat_message (str "assistant") (VStr (str "hello"))].
Proof.
  apply (proj1 (proj2
    (client_receive (json_text "{'response':'hello'}") (Client.load Stub.blank_page)))
    (VObj [(str "response", VStr (str "hello"))]) (VStr (str "hello"))
    eq_refl eq_refl eq_refl eq_refl).
Defined.

(** C6 as the spec states it fails: the frame [{"response":""}] has a
    [response] field, and neither the history nor the chat log grows. *)
Lemma empty_response_is_dropped :
  JSON_parse (json_text "{'response':''}")
  = Ok (VObj [(str "response", VStr [])])
  /\ get (VObj [(str "response", VStr [])]) (str "response")
     = Ok (Some (VStr []))
  /\ Client.chatHistory
       (Client.onMessage (json_text "{'response':''}") (Client.load Stub.blank_page))
     = Client.chatHistory (Client.load Stub.blank_page)
  /\ Client.chatMessages
       (Client.dom
          (Client.onMessage (json_text "{'response':''}")
             (Client.load Stub.blank_page)))
     = Client.chatMessages (Client.dom (Client.load Stub.blank_page)).
Proof. repeat split; reflexivity. Qed.

(** A reply that cannot be shown: the frame [{"response":{"toString":0}}]
    carries a truthy [response], an object, whose conversion to a string
    throws; neither the history nor the chat log grows. The same holds for
    an array that holds such an object. *)
Lemma unconvertible_response_is_dropped :
  let frame := json_text "{'response':{'toString':0}}" in
  let r := VObj [(str "toString", VNum (str "0"))] in
  JSON_parse frame = Ok (VObj [(str "response", r)])
  /\ truthy r = true
  /\ to_string_throws r = true
  /\ to_string_throws (VArr [VNull; r]) = true
  /\ Client.chatHistory (Client.onMessage frame (Client.load Stub.blank_page))
     = Client.chatHistory (Client.load Stub.blank_page)
  /\ Client.chatMessages
       (Client.dom (Client.onMessage frame (Client.load Stub.blank_page)))
     = Client.chatMessages (Client.dom (Client.load Stub.blank_page)).
Proof. repeat split; reflexivity. Qed.

(** ** The client: sending *)

Section Send.
Import Client.

Lemma sendMessage_noop (t : bool) (s : State) :
  trim (userInput_value (dom s)) = [] \/ isProcessing s = true
  \/ socketReady s = false ->
  sendMessage t s = s.
Proof.
  intros [H|[H|H]]; unfold sendMessage; rewrite H; simpl;
    rewrite ?orb_true_r; reflexivity.
Qed.

Lemma may_send_guard (s : State) :
  may_send s ->
  streq (trim (userInput_value (dom s))) [] || isProcessing s
  || negb (socketReady s) = false.
Proof.
  intros (Hin & Hp & Hr). apply streq_neq in Hin.
  rewrite Hin, Hp, Hr. reflexivity.
Qed.

Lemma sendMessage_sent (s : State) :
  may_send s ->
  chatHistory (sendMessage false s) = chatHistory s ++ [user_turn s]
  /\ outbox (sendMessage false s)
     = outbox s ++ [messages_frame (chatHistory s ++ [user_turn s])]
  /\ isProcessing (sendMessage false s) = true
  /\ socketReady (sendMessage false s) = true.
Proof.
  intros H. unfold sendMessage. rewrite (may_send_guard s H). simpl.
  destruct H as (_ & _ & Hr). auto.
Qed.

Lemma sendMessage_thrown (s : State) :
  may_send s ->
  chatHistory (sendMessage true s) = chatHistory s ++ [user_turn s]
  /\ outbox (sendMessage true s) = outbox s
  /\ chatMessages (dom (sendMessage true s))
     = chatMessages (dom s)
       ++ [{| className := str "message user-message";
              content := VStr (trim (userInput_value (dom s))) |};
           {| className := str "message assistant-message";
              content := VStr apology |}]
  /\ isProcessing (sendMessage true s) = false
  /\ socketReady (sendMessage true s) = true
  /\ userInput_disabled (dom (sendMessage true s)) = false
  /\ sendButton_disabled (dom (sendMessage true s)) = false
  /\ typingIndicator_visible (dom (sendMessage true s)) = false.
Proof.
  intros H. unfold sendMessage. rewrite (may_send_guard s H). simpl.
  destruct H as (_ & _ & Hr). rewrite <- app_assoc. auto 10.
Qed.

Lemma step_processing (s : State) (e : Event) :
  isProcessing s = true -> not_a_message e ->
  isProcessing (step s e) = true /\ outbox (step s e) = outbox s.
Proof.
  intros Hp He. destruct e as [| | |data|text|t]; simpl.
  - auto.
  - auto.
  - unfold onTimer. destruct (timers s); auto.
  - destruct (He data). reflexivity.
  - auto.
  - rewrite sendMessage_noop by auto. auto.
Qed.

Lemma run_processing (events : list Event) (s : State) :
  isProcessing s = true -> Forall not_a_message events ->
  isProcessing (run s events) = true /\ outbox (run s events) = outbox s.
Proof.
  intros Hp Hev. revert s Hp.
  induction Hev as [|e events He _ IH]; intros s Hp; [auto|].
  destruct (step_processing s e Hp He) as [Hp' Ho].
  change (run s (e :: events)) with (run (step s e) events).
  destruct (IH _ Hp') as [IHp IHo]. split; [exact IHp | congruence].
Qed.

End Send.

(** C7. [sendMessage] does nothing when the trimmed input is empty, when a
    send is in flight, or when the socket is not ready. A call that goes on
    hands one frame to the socket; a second call before the reply leaves the
    state as it is, and whatever happens before a frame arrives (more calls,
    typing, a reconnect) sends nothing more. *)
Theorem one_send_in_flight (s : Client.State) :
  (forall t,
     trim (Client.userInput_value (Client.dom s)) = []
     \/ Client.isProcessing s = true \/ Client.socketReady s = false ->
     Client.sendMessage t s = s)
  /\ (may_send s ->
      Client.outbox (Client.sendMessage false s)
      = Client.outbox s
        ++ [messages_frame (Client.chatHistory s ++ [user_turn s])]
      /\ (forall t,
            Client.sendMessage t (Client.sendMessage false s)
            = Client.sendMessage false s)
      /\ (forall events,
            Forall not_a_message events ->
            Client.outbox (Client.run (Client.sendMessage false s) events)
            = Client.outbox (Client.sendMessage false s))).
Proof.
  split; [intros t; apply sendMessage_noop|].
  intros H. destruct (sendMessage_sent s H) as (_ & Ho & Hp & _).
  split; [exact Ho|]. split.
  - intros t. apply sendMessage_noop. auto.
  - intros events Hev. apply run_processing; assumption.
Qed.

Lemma ready_hi_may_send : may_send Stub.ready_hi.
Proof. repeat split. discriminate. Defined.

(** Two calls in a row hand one frame to the socket. *)
Lemma one_send_in_flight_witness :
  Client.outbox (Client.sendMessage false (Client.sendMessage false Stub.ready_hi))
  = [messages_frame
       [Client.greeting; Client.chat_message (str "user") (VStr (str "hi"))]].
Proof.
  destruct (proj2 (one_send_in_flight Stub.ready_hi) ready_hi_may_send)
    as (Ho & Hnoop & _).
  rewrite Hnoop. exact Ho.
Defined.

(** C9. When [socket.send] throws, the user turn stays in the history, the
    apology goes to the chat log only, nothing is sent, and the controls are
    released; the next send that goes through carries the history with the
    failed user turn, followed by the new one. *)
Theorem failed_send_keeps_user_turn (s : Client.State) :
  may_send s ->
  let s1 := Client.sendMessage true s in
  Client.chatHistory s1 = Client.chatHistory s ++ [user_turn s]
  /\ Client.chatMessages (Client.dom s1)
     = Client.chatMessages (Client.dom s)
       ++ [{| Client.className := str "message user-message";
              Client.content := VStr (trim (Client.userInput_value (Client.dom s))) |};
           {| Client.className := str "message assistant-message";
              Client.content :=
                VStr (str "Sorry, there was an error processing your request.") |}]
  /\ Client.outbox s1 = Client.outbox s
  /\ Client.isProcessing s1 = false
  /\ forall text,
       trim text <> [] ->
       Client.outbox (Client.sendMessage false (Client.onInput text s1))
       = Client.outbox s
         ++ [messages_frame
               (Client.chatHistory s
                ++ [user_turn s;
                    Client.chat_message (str "user") (VStr (trim text))])].
Proof.
  intros H s1.
  destruct (sendMessage_thrown s H) as (Hh & Ho & Hlog & Hp & Hr & _).
  fold s1 in Hh, Ho, Hlog, Hp, Hr.
  split; [exact Hh|]. split; [exact Hlog|]. split; [exact Ho|].
  split; [exact Hp|]. intros text Htext.
  assert (may_send (Client.onInput text s1)) as H1 by (repeat split; assumption).
  destruct (sendMessage_sent _ H1) as (_ & Ho1 & _).
  rewrite Ho1. simpl. rewrite Ho, Hh, <- app_assoc. reflexivity.
Qed.

(** The send of " hi " throws; the user types "again" and the send goes
    through. *)
Lemma failed_send_keeps_user_turn_witness :
  Client.outbox
    (Client.sendMessage false
       (Client.onInput (str "again") (Client.sendMessage true Stub.ready_hi)))
  = [messages_frame
       [Client.greeting; Client.chat_message (str "user") (VStr (str "hi"));
        Client.chat_message (str "user") (VStr (str "again"))]].
Proof.
  apply (proj2 (proj2 (proj2 (proj2
    (failed_send_keeps_user_turn Stub.ready_hi ready_hi_may_send))))
    (str "again")).
  discriminate.
Defined.

(** ** The client: the history *)

Section History.
Import Client.

(** The event leaves the history and the outbox as they are. *)
Ltac nothing_added := exists []; rewrite app_nil_r; solve [auto].

Lemma step_history (s : State) (e : Event) :
  exists added,
    chatHistory (step s e) = chatHistory s ++ added
    /\ Forall client_turn added
    /\ (outbox (step s e) = outbox s
        \/ outbox (step s e)
           = outbox s ++ [messages_frame (chatHistory (step s e))]).
Proof.
  destruct e as [| | |data|text|t]; simpl.
  - nothing_added.
  - nothing_added.
  - unfold onTimer. destruct (timers s); nothing_added.
  - unfold onMessage, receive.
    destruct (JSON_parse data) as [payload|]; simpl;
      [|nothing_added].
    destruct (get payload (str "response")) as [[r|]|]; simpl;
      try (nothing_added).
    destruct (truthy r); simpl; [|nothing_added].
    unfold addMessageToChat.
    destruct (to_string_throws r); simpl; [nothing_added|].
    exists [chat_message (str "assistant") r]. split; [reflexivity|].
    split; [|auto]. repeat constructor. exists (str "assistant"), r. auto.
  - nothing_added.
  - unfold sendMessage.
    destruct (streq _ _ || _ || _); [nothing_added|].
    exists [chat_message (str "user") (VStr (trim (userInput_value (dom s))))].
    assert (Forall client_turn
              [chat_message (str "user") (VStr (trim (userInput_value (dom s))))]).
    { repeat constructor. eexists _, _. auto. }
    destruct t; simpl; auto.
Qed.

Lemma step_well_formed (s : State) (e : Event) :
  well_formed s -> well_formed (step s e).
Proof.
  intros [[rest Hg] Ht Hf].
  destruct (step_history s e) as (added & Hh & Ha & Ho).
  split.
  - exists (rest ++ added). rewrite Hh, Hg. reflexivity.
  - rewrite Hh. apply Forall_app. auto.
  - destruct Ho as [->| ->]; [exact Hf|].
    apply Forall_app. split; [exact Hf|]. repeat constructor.
    exists (rest ++ added). rewrite Hh, Hg. reflexivity.
Qed.

Lemma load_well_formed (page : Dom) : well_formed (load page).
Proof.
  split; simpl.
  - exists []. reflexivity.
  - repeat constructor. eexists _, _. split; [reflexivity|auto].
  - constructor.
Qed.

Lemma run_well_formed (events : list Event) (s : State) :
  well_formed s -> well_formed (run s events).
Proof.
  revert s. induction events as [|e events IH]; intros s H; [exact H|].
  apply (IH (step s e)), step_well_formed, H.
Qed.

Lemma run_history (events : list Event) (s : State) :
  chatHistory s `prefix_of` chatHistory (run s events).
Proof.
  revert s. induction events as [|e events IH]; intros s; [reflexivity|].
  etransitivity; [|apply (IH (step s e))].
  destruct (step_history s e) as (added & Hh & _). exists added. exact Hh.
Qed.

End History.

(** C10. The history starts as the one assistant greeting. No event removes
    or reorders an entry: the history before is a prefix of the history after.
    So, after any events on a loaded page, the history still starts with the
    greeting, every entry is a user or an assistant turn, never a system one,
    and every frame handed to the socket is [{ messages }] for an array whose
    first entry is the greeting. *)
Theorem history_only_grows (page : Client.Dom) (events : list Client.Event) :
  Client.chatHistory (Client.load page) = [Client.greeting]
  /\ get Client.greeting (str "role") = Ok (Some (VStr (str "assistant")))
  /\ (forall s more,
        Client.chatHistory s `prefix_of` Client.chatHistory (Client.run s more))
  /\ (exists rest,
        Client.chatHistory (Client.run (Client.load page) events)
        = Client.greeting :: rest)
  /\ Forall client_turn
       (Client.chatHistory (Client.run (Client.load page) events))
  /\ Forall (fun m => role_is_system m = false)
       (Client.chatHistory (Client.run (Client.load page) events))
  /\ Forall greeted_frame
       (Client.outbox (Client.run (Client.load page) events)).
Proof.
  destruct (run_well_formed events _ (load_well_formed page)) as [Hg Ht Hf].
  split; [reflexivity|]. split; [reflexivity|].
  split; [intros s more; apply run_history|].
  split; [exact Hg|]. split; [exact Ht|]. split; [|exact Hf].
  eapply Forall_impl; [exact Ht|].
  intros m (role & text & -> & [-> | ->]); reflexivity.
Qed.

(** ** The Worker and the client together *)

(** A reply of the Worker with a non-empty text reaches the chat log and the
    history of the client as an assistant turn; an empty text leaves both as
    they are. Either way the client is released. *)
Lemma reply_reaches_client (text : jsstring) (s : Client.State) :
  let s' := Client.onMessage (Worker.response_frame text) s in
  (text <> [] ->
   Client.chatHistory s'
   = Client.chatHistory s ++ [Client.chat_message (str "assistant") (VStr text)])
  /\ (text = [] -> Client.chatHistory s' = Client.chatHistory s)
  /\ Client.isProcessing s' = false.
Proof.
  intros s'. split; [|split; [|reflexivity]].
  - intros Htext.
    apply (onMessage_truthy (Worker.response_frame text) s
             (VObj [(str "response", VStr text)]) (VStr text)).
    + apply JSON_parse_string_property.
    + reflexivity.
    + simpl. apply negb_true_iff, bool_decide_eq_false. exact Htext.
    + reflexivity.
  - intros ->. reflexivity.
Qed.

(** The same for the chat log: a non-empty text adds one child of class
    [message assistant-message], an empty text none. *)
Lemma reply_reaches_chat_log (text : jsstring) (s : Client.State) :
  let s' := Client.onMessage (Worker.response_frame text) s in
  (text <> [] ->
   Client.chatMessages (Client.dom s')
   = Client.chatMessages (Client.dom s)
     ++ [{| Client.className := str "message assistant-message";
            Client.content := VStr text |}])
  /\ (text = [] ->
      Client.chatMessages (Client.dom s') = Client.chatMessages (Client.dom s)).
Proof.
  intros s'. split.
  - intros Htext.
    apply (onMessage_truthy (Worker.response_frame text) s
             (VObj [(str "response", VStr text)]) (VStr text)).
    + apply JSON_parse_string_property.
    + reflexivity.
    + simpl. apply negb_true_iff, bool_decide_eq_false. exact Htext.
    + reflexivity.
  - intros ->. reflexivity.
Qed.

(** * Further properties of the code *)

(** ** The prepared list *)

Lemma some_system_found (msgs : list value) (found : bool) :
  Worker.some_system msgs = Ok found -> has_system msgs = found.
Proof.
  induction msgs as [|m msgs IH]; intros H; [inversion H; reflexivity|].
  cbn [Worker.some_system] in H.
  assert (m = VNull \/ m <> VNull) as [->|Hm]
    by (destruct m; auto; right; discriminate).
  - discriminate H.
  - rewrite is_system_value in H by exact Hm. cbn [bind] in H.
    unfold has_system. cbn [existsb].
    destruct (role_is_system m); [inversion H; reflexivity | exact (IH H)].
Qed.

Lemma prepared_has_system (messages : value) (forwarded : list value) :
  Worker.add_system_prompt messages = Ok forwarded ->
  has_system forwarded = true.
Proof.
  unfold Worker.add_system_prompt. intros H.
  destruct messages as [| | | |msgs|]; try discriminate.
  destruct (Worker.some_system msgs) as [found|] eqn:E; [|discriminate].
  apply some_system_found in E. simpl in H.
  destruct found; injection H as <-; [exact E | reflexivity].
Qed.

(** X1. Whatever value arrives as [messages], when the prepend step does not
    throw the value was an array, the list handed on holds an entry with role
    "system", and it is the array itself or the array behind the default
    system message. *)
Theorem forwarded_list_has_system (messages : value) (forwarded : list value) :
  Worker.add_system_prompt messages = Ok forwarded ->
  has_system forwarded = true
  /\ exists msgs,
       messages = VArr msgs
       /\ ((has_system msgs = true /\ forwarded = msgs)
           \/ (has_system msgs = false
               /\ forwarded = Worker.system_message :: msgs)).
Proof.
  unfold Worker.add_system_prompt. intros H.
  destruct messages as [| | | |msgs|]; try discriminate.
  destruct (Worker.some_system msgs) as [found|] eqn:E; [|discriminate].
  apply some_system_found in E. simpl in H.
  destruct found; injection H as <-.
  - split; [exact E|]. exists msgs. auto.
  - split; [reflexivity|]. exists msgs. auto.
Qed.

Lemma forwarded_list_has_system_witness :
  has_system [Worker.system_message; VNum (str "7")] = true.
Proof.
  apply (forwarded_list_has_system (VArr [VNum (str "7")])
           [Worker.system_message; VNum (str "7")] eq_refl).
Defined.

(** X2. The prepend step is idempotent: run on its own result it returns that
    result. *)
Theorem add_system_prompt_idempotent (messages : value)
  (forwarded : list value) :
  Worker.add_system_prompt messages = Ok forwarded ->
  Worker.add_system_prompt (VArr forwarded) = Ok forwarded.
Proof.
  unfold Worker.add_system_prompt. intros H.
  destruct messages as [| | | |msgs|]; try discriminate.
  destruct (Worker.some_system msgs) as [[|]|] eqn:E; try discriminate;
    inversion H; subst.
  - rewrite E. reflexivity.
  - reflexivity.
Qed.

Lemma add_system_prompt_idempotent_witness :
  Worker.add_system_prompt (VArr [Worker.system_message; Stub.user_hi])
  = Ok [Worker.system_message; Stub.user_hi].
Proof.
  apply (add_system_prompt_idempotent (VArr [Stub.user_hi])
           [Worker.system_message; Stub.user_hi] eq_refl).
Defined.

(** ** The HTTP chat handler *)

(** X3. The chat handler has two outcomes. It answers with the 500 envelope,
    or it returns, as it is, what the inference API returned for the model
    id, a list with a system entry and 1024 tokens. When the preparation
    succeeds and the inference call throws, the answer is the 500
    envelope. *)
Theorem chat_request_outcomes (env : Worker.Env) (req : Worker.Request) :
  (Worker.handleChatRequest env req = Worker.error_response
   \/ exists forwarded r,
        has_system forwarded = true
        /\ Worker.AI_run_raw env Worker.MODEL_ID forwarded 1024 = Ok r
        /\ Worker.handleChatRequest env req = r)
  /\ (forall payload messages forwarded e,
        Worker.request_json req = Ok payload ->
        Worker.destructure_messages payload = Ok messages ->
        Worker.add_system_prompt messages = Ok forwarded ->
        Worker.AI_run_raw env Worker.MODEL_ID forwarded 1024 = Throw e ->
        Worker.handleChatRequest env req = Worker.error_response).
Proof.
  split.
  - unfold Worker.handleChatRequest.
    destruct (Worker.request_json req) as [payload|]; [simpl|auto].
    destruct (Worker.destructure_messages payload) as [messages|]; [simpl|auto].
    destruct (Worker.add_system_prompt messages) as [forwarded|] eqn:E;
      [simpl|auto].
    destruct (Worker.AI_run_raw env Worker.MODEL_ID forwarded 1024) as [r|] eqn:Er;
      [|auto].
    right. exists forwarded, r.
    split; [exact (prepared_has_system _ _ E)|auto].
  - intros payload messages forwarded e H1 H2 H3 H4.
    erewrite handleChatRequest_forwards by eassumption.
    rewrite H4. reflexivity.
Qed.

(** ** The router and the sockets *)

Lemma fetch_runtime (env : Worker.Env) (req : Worker.Request)
  (rt : Worker.Runtime) :
  (Worker.fetch env req rt).2 = rt
  \/ (Worker.pathname req = str "/ws"
      /\ Worker.headers_get (Worker.headers req) (str "Upgrade")
         = Some (str "websocket")
      /\ Worker.pairs (Worker.fetch env req rt).2
         = Worker.pairs rt
           ++ [{| Worker.accepted := true; Worker.listening := true;
                  Worker.closed := false; Worker.sent := [] |}]).
Proof.
  unfold Worker.fetch, Worker.handleWebSocket.
  destruct (streq (Worker.pathname req) (str "/ws")) eqn:Hws.
  - apply streq_eq in Hws.
    destruct (Worker.headers_get _ _) as [v|]; [|left; reflexivity].
    destruct (streq v (str "websocket")) eqn:Hv; [|left; reflexivity].
    apply streq_eq in Hv. subst v. right. auto.
  - left.
    destruct (streq (Worker.pathname req) (str "/")
              || negb (startsWith (Worker.pathname req) (str "/api/")));
      [reflexivity|].
    destruct (streq (Worker.pathname req) (str "/api/chat")); [|reflexivity].
    destruct (streq (Worker.method req) (str "POST")); reflexivity.
Qed.

(** X4. Routing never disturbs a socket: the pairs that exist stay as they
    are, in place; the runtime changes only for [/ws] with
    [Upgrade: websocket]; and a POST on [/api/chat] is answered by the chat
    handler. *)
Theorem fetch_keeps_sockets (env : Worker.Env) (req : Worker.Request)
  (rt : Worker.Runtime) :
  Worker.pairs rt `prefix_of` Worker.pairs (Worker.fetch env req rt).2
  /\ (Worker.pathname req <> str "/ws"
      \/ Worker.headers_get (Worker.headers req) (str "Upgrade")
         <> Some (str "websocket") ->
      (Worker.fetch env req rt).2 = rt)
  /\ (Worker.pathname req = str "/api/chat" ->
      Worker.method req = str "POST" ->
      (Worker.fetch env req rt).1 = Worker.handleChatRequest env req).
Proof.
  split; [|split].
  - destruct (fetch_runtime env req rt) as [-> | (_ & _ & ->)];
      [reflexivity | apply prefix_app_r; reflexivity].
  - intros H.
    destruct (fetch_runtime env req rt) as [E | (Hws & Hup & _)];
      [exact E | destruct H; contradiction].
  - intros Hpath Hpost.
    rewrite fetch_api by (rewrite Hpath; reflexivity).
    rewrite Hpath, Hpost, !streq_refl. reflexivity.
Qed.

Lemma fetch_keeps_sockets_witness :
  (Worker.fetch (Stub.env (Ok None))
     (Stub.request "POST" "/api/chat" [] (Some (json_bytes Stub.hi_payload)))
     {| Worker.pairs := [Stub.fresh_socket] |})
  = (Stub.streamed, {| Worker.pairs := [Stub.fresh_socket] |}).
Proof.
  pose proof (fetch_keeps_sockets (Stub.env (Ok None))
     (Stub.request "POST" "/api/chat" [] (Some (json_bytes Stub.hi_payload)))
     {| Worker.pairs := [Stub.fresh_socket] |}) as (_ & Hrt & Hchat).
  apply injective_projections.
  - rewrite (Hchat eq_refl eq_refl). reflexivity.
  - apply Hrt. left. discriminate.
Defined.

(** ** The frames of the Worker *)

Lemma reply_frame_text (env : Worker.Env) (data : Worker.MessageData) :
  exists text, reply_frame env data = Worker.response_frame text.
Proof.
  unfold reply_frame.
  destruct (JSON_parse _) as [payload|]; [simpl|eauto].
  destruct (Worker.destructure_messages _) as [messages|]; [simpl|eauto].
  destruct (Worker.add_system_prompt _) as [forwarded|]; [simpl|eauto].
  destruct (Worker.AI_run _ _ _ _); simpl; eauto.
Qed.

(** X5. For every message event, whatever the frame holds and whatever the
    inference API does, the listener sends one frame, and that frame is the
    JSON text of an object with the single property [response], a string. *)
Theorem worker_frame_shape (env : Worker.Env) (data : Worker.MessageData)
  (server : Worker.ServerSocket) :
  exists text,
    Worker.sent (Worker.onMessage env data server)
    = Worker.sent server ++ [Worker.response_frame text]
    /\ JSON_parse (Worker.response_frame text)
       = Ok (VObj [(str "response", VStr text)])
    /\ Worker.accepted (Worker.onMessage env data server)
       = Worker.accepted server
    /\ Worker.closed (Worker.onMessage env data server) = Worker.closed server.
Proof.
  destruct (reply_frame_text env data) as [text E]. exists text.
  rewrite onMessage_sends_one, E.
  split; [reflexivity|]. split; [|split; reflexivity].
  apply JSON_parse_string_property.
Qed.

(** X6. What the Worker answers reaches the client: for every message event
    of the Worker, the frame it sends releases the client and, when its text
    is not empty, adds that text to the history and to the chat log as an
    assistant turn; an empty text leaves the history and the chat log as
    they were. The apology of the Worker is a text that is not empty: unlike
    the apology the client shows for a failed send, it enters the history. *)
Theorem worker_reply_in_client (env : Worker.Env) (data : Worker.MessageData)
  (s : Client.State) :
  exists text,
    reply_frame env data = Worker.response_frame text
    /\ Client.isProcessing (Client.onMessage (reply_frame env data) s) = false
    /\ (text <> [] ->
        Client.chatHistory (Client.onMessage (reply_frame env data) s)
        = Client.chatHistory s
          ++ [Client.chat_message (str "assistant") (VStr text)]
        /\ Client.chatMessages
             (Client.dom (Client.onMessage (reply_frame env data) s))
           = Client.chatMessages (Client.dom s)
             ++ [bubble (str "assistant") (VStr text)])
    /\ (text = [] ->
        Client.chatHistory (Client.onMessage (reply_frame env data) s)
        = Client.chatHistory s
        /\ Client.chatMessages
             (Client.dom (Client.onMessage (reply_frame env data) s))
           = Client.chatMessages (Client.dom s))
    /\ (forall server e,
          Worker.relay env data server = Throw e ->
          text = str "Sorry, there was an error processing your request.")
    /\ (forall server e,
          Worker.relay env data server = Throw e ->
          Client.chatHistory (Client.onMessage (reply_frame env data) s)
          = Client.chatHistory s
            ++ [Client.chat_message (str "assistant")
                  (VStr (str "Sorry, there was an error processing your request."))]).
Proof.
  destruct (reply_frame_text env data) as [text E]. exists text.
  split; [exact E|]. split; [reflexivity|].
  assert (forall server e, Worker.relay env data server = Throw e ->
            text = str "Sorry, there was an error processing your request.")
    as Hsorry.
  { intros server e Hthrow.
    rewrite (relay_throws_frame env data server e Hthrow) in E.
    assert (JSON_parse (Worker.response_frame Worker.apology)
            = JSON_parse (Worker.response_frame text)) as Hparse
      by (rewrite E; reflexivity).
    unfold Worker.response_frame in Hparse.
    rewrite !JSON_parse_string_property in Hparse.
    inversion Hparse. reflexivity. }
  rewrite E.
  destruct (reply_reaches_client text s) as (Hfull & Hempty & _).
  destruct (reply_reaches_chat_log text s) as (Hshown & Hnone).
  split; [|split; [|split]].
  - intros Htext. split; [apply Hfull | apply Hshown]; exact Htext.
  - intros Htext. split; [apply Hempty | apply Hnone]; exact Htext.
  - exact Hsorry.
  - intros server e Hthrow.
    rewrite <- (Hsorry server e Hthrow). apply Hfull.
    rewrite (Hsorry server e Hthrow). discriminate.
Qed.

(** ** Binary frames *)

Lemma strip_bom_ascii (b : N) (l : list N) :
  (b < 128)%N -> strip_bom (b :: l) = b :: l.
Proof.
  intros H. unfold strip_bom.
  destruct b as [|p]; [reflexivity|].
  do 8 (destruct p as [p|p|]; try reflexivity); lia.
Qed.

Lemma utf8_code_points_ascii (l : list N) :
  Forall (fun b => b < 128)%N l -> utf8_code_points Idle l = l.
Proof.
  induction 1 as [|b l Hb _ IH]; [reflexivity|].
  cbn [utf8_code_points utf8_step]. unfold utf8_lead.
  assert ((b <=? 127)%N = true) as -> by (apply N.leb_le; lia).
  cbn [app]. rewrite IH. reflexivity.
Qed.

Lemma utf16_encode_ascii (l : list N) :
  Forall (fun b => b < 128)%N l -> flat_map utf16_encode l = l.
Proof.
  induction 1 as [|b l Hb _ IH]; [reflexivity|].
  change (flat_map utf16_encode (b :: l))
    with (utf16_encode b ++ flat_map utf16_encode l).
  rewrite IH. unfold utf16_encode.
  assert ((b <? 65536)%N = true) as -> by (apply N.ltb_lt; lia).
  reflexivity.
Qed.

Lemma utf8_decode_ascii (bytes : list Byte.byte) :
  Forall (fun b => Byte.to_N b < 128)%N bytes ->
  utf8_decode bytes = map Byte.to_N bytes.
Proof.
  intros H. unfold utf8_decode.
  assert (Forall (fun b => b < 128)%N (map Byte.to_N bytes)) as H'
    by (apply Forall_map; exact H).
  assert (strip_bom (map Byte.to_N bytes) = map Byte.to_N bytes) as ->.
  { destruct H' as [|b l Hb _]; [reflexivity | apply strip_bom_ascii, Hb]. }
  rewrite utf8_code_points_ascii by exact H'.
  apply utf16_encode_ascii, H'.
Qed.

(** X7. A binary frame whose bytes are ASCII is answered as the text frame
    with the same characters is. *)
Theorem binary_frame_as_text (env : Worker.Env) (bytes : list Byte.byte)
  (server : Worker.ServerSocket) :
  Forall (fun b => Byte.to_N b < 128)%N bytes ->
  Worker.onMessage env (Worker.BinaryData bytes) server
  = Worker.onMessage env (Worker.TextData (map Byte.to_N bytes)) server.
Proof.
  intros H. unfold Worker.onMessage, Worker.relay, Worker.data_string.
  rewrite utf8_decode_ascii by exact H. reflexivity.
Qed.

Lemma binary_frame_as_text_witness :
  Worker.sent
    (Worker.onMessage (Stub.env (Ok (Some (VStr (str "hello")))))
       (Worker.BinaryData (json_bytes Stub.hi_payload)) Stub.fresh_socket)
  = [json_text "{'response':'hello'}"].
Proof.
  rewrite (binary_frame_as_text (Stub.env (Ok (Some (VStr (str "hello")))))
             (json_bytes Stub.hi_payload) Stub.fresh_socket).
  - reflexivity.
  - repeat constructor.
Defined.

(** ** The connection of the client *)

Section Connection.
Import Client.

Lemma onMessage_keeps (data : jsstring) (s : State) :
  socketReady (onMessage data s) = socketReady s
  /\ sockets (onMessage data s) = sockets s
  /\ timers (onMessage data s) = timers s
  /\ outbox (onMessage data s) = outbox s.
Proof.
  unfold onMessage, receive.
  destruct (JSON_parse data) as [payload|]; simpl; [|auto].
  destruct (get payload (str "response")) as [[r|]|]; simpl; auto.
  destruct (truthy r); simpl; auto.
  unfold addMessageToChat. destruct (to_string_throws r); simpl; auto.
Qed.

Lemma sendMessage_keeps (t : bool) (s : State) :
  socketReady (sendMessage t s) = socketReady s
  /\ sockets (sendMessage t s) = sockets s
  /\ timers (sendMessage t s) = timers s.
Proof.
  unfold sendMessage.
  destruct (streq _ _ || _ || _); [auto|]. destruct t; simpl; auto.
Qed.

Lemma step_disconnected (s : State) (e : Event) :
  socketReady s = false -> not_an_open e ->
  socketReady (step s e) = false /\ outbox (step s e) = outbox s.
Proof.
  intros Hr He. destruct e as [| | |data|text|t]; cbn [step].
  - destruct He. reflexivity.
  - auto.
  - unfold onTimer. destruct (timers s); auto.
  - destruct (onMessage_keeps data s) as (-> & _ & _ & ->). auto.
  - auto.
  - rewrite sendMessage_noop by auto. auto.
Qed.

Lemma run_disconnected (events : list Event) (s : State) :
  socketReady s = false -> Forall not_an_open events ->
  socketReady (run s events) = false /\ outbox (run s events) = outbox s.
Proof.
  intros Hr Hev. revert s Hr.
  induction Hev as [|e events He _ IH]; intros s Hr; [auto|].
  destruct (step_disconnected s e Hr He) as [Hr' Ho].
  change (run s (e :: events)) with (run (step s e) events).
  destruct (IH _ Hr') as [IHr IHo]. split; [exact IHr | congruence].
Qed.

Lemma step_sockets (s : State) (e : Event) :
  sockets (step s e) + timers (step s e)
  = sockets s + timers s + (if is_close e then 1 else 0).
Proof.
  destruct e as [| | |data|text|t]; cbn [step is_close].
  - simpl. lia.
  - simpl. lia.
  - unfold onTimer. destruct (timers s) eqn:E; simpl; lia.
  - destruct (onMessage_keeps data s) as (_ & -> & -> & _). lia.
  - simpl. lia.
  - destruct (sendMessage_keeps t s) as (_ & -> & ->). lia.
Qed.

Lemma step_sockets_grow (s : State) (e : Event) :
  sockets s <= sockets (step s e).
Proof.
  destruct e as [| | |data|text|t]; cbn [step].
  - simpl. lia.
  - simpl. lia.
  - unfold onTimer. destruct (timers s); simpl; lia.
  - destruct (onMessage_keeps data s) as (_ & -> & _). lia.
  - simpl. lia.
  - destruct (sendMessage_keeps t s) as (_ & -> & _). lia.
Qed.

Lemma run_sockets (events : list Event) (s : State) :
  sockets (run s events) + timers (run s events)
  = sockets s + timers s + length (List.filter is_close events)
  /\ sockets s <= sockets (run s events).
Proof.
  revert s. induction events as [|e events IH]; intros s; [simpl; lia|].
  change (run s (e :: events)) with (run (step s e) events).
  destruct (IH (step s e)) as [IH1 IH2].
  pose proof (step_sockets s e). pose proof (step_sockets_grow s e).
  cbn [List.filter]. destruct (is_close e); simpl in *; lia.
Qed.

End Connection.

(** X8. While the socket is not ready nothing is sent: from a state in which
    [socketReady] is false, no sequence of events without an open event hands
    a frame to the socket, and [socketReady] stays false. A close event puts
    the client in such a state. *)
Theorem nothing_sent_while_disconnected (s : Client.State)
  (events : list Client.Event) :
  Forall not_an_open events ->
  (Client.socketReady s = false ->
   Client.socketReady (Client.run s events) = false
   /\ Client.outbox (Client.run s events) = Client.outbox s)
  /\ Client.outbox (Client.run (Client.onClose s) events) = Client.outbox s.
Proof.
  intros Hev. split.
  - intros Hr. apply run_disconnected; assumption.
  - apply (run_disconnected events (Client.onClose s) eq_refl Hev).
Qed.

Lemma nothing_sent_while_disconnected_witness :
  Client.outbox
    (Client.run (Client.onClose Stub.ready_hi)
       [Client.SendMessage false; Client.ReconnectTimer;
        Client.SendMessage false])
  = [].
Proof.
  apply (proj2 (nothing_sent_while_disconnected Stub.ready_hi
                  [Client.SendMessage false; Client.ReconnectTimer;
                   Client.SendMessage false]
                  ltac:(repeat constructor; discriminate))).
Defined.

(** X9. Reconnecting loses and repeats nothing: after any events on a loaded
    page, the sockets created and the reconnect timers still pending add up
    to one (the socket of the load) plus the number of close events, and the
    number of sockets never goes down. *)
Theorem reconnect_accounting (page : Client.Dom) (events : list Client.Event) :
  Client.sockets (Client.run (Client.load page) events)
  + Client.timers (Client.run (Client.load page) events)
  = 1 + length (List.filter is_close events)
  /\ forall s more,
       Client.sockets s <= Client.sockets (Client.run s more).
Proof.
  split.
  - destruct (run_sockets events (Client.load page)) as [H _].
    rewrite H. reflexivity.
  - intros s more. apply run_sockets.
Qed.

(** ** The controls of the client *)

Section Locked.
Import Client.

Lemma step_locked (s : State) (e : Event) : locked s -> locked (step s e).
Proof.
  intros H. destruct e as [| | |data|text|t]; cbn [step].
  - exact H.
  - exact H.
  - unfold onTimer. destruct (timers s); exact H.
  - intros Hp. discriminate Hp.
  - exact H.
  - unfold sendMessage.
    destruct (streq _ _ || _ || _); [exact H|].
    destruct t; intros Hp; [discriminate Hp|]. simpl. auto.
Qed.

Lemma run_locked (events : list Event) (s : State) :
  locked s -> locked (run s events).
Proof.
  revert s. induction events as [|e events IH]; intros s H; [exact H|].
  apply (IH (step s e)), step_locked, H.
Qed.

End Locked.

(** X10. On a loaded page, whenever a send is in flight the input field and
    the send button are disabled and the typing indicator is shown, whatever
    events came before. *)
Theorem controls_locked_while_processing (page : Client.Dom)
  (events : list Client.Event) :
  Client.isProcessing (Client.run (Client.load page) events) = true ->
  Client.userInput_disabled
    (Client.dom (Client.run (Client.load page) events)) = true
  /\ Client.sendButton_disabled
       (Client.dom (Client.run (Client.load page) events)) = true
  /\ Client.typingIndicator_visible
       (Client.dom (Client.run (Client.load page) events)) = true.
Proof.
  apply (run_locked events (Client.load page)).
  intros Hp. discriminate Hp.
Qed.

Lemma controls_locked_while_processing_witness :
  Client.userInput_disabled
    (Client.dom
       (Client.run (Client.load Stub.blank_page)
          [Client.SocketOpen; Client.UserInput (str "hi");
           Client.SendMessage false; Client.SocketClose])) = true.
Proof.
  apply (controls_locked_while_processing Stub.blank_page
           [Client.SocketOpen; Client.UserInput (str "hi");
            Client.SendMessage false; Client.SocketClose] eq_refl).
Defined.

(** ** The chat log and the history *)

Section Shown.
Import Client.

Lemma step_shown (s : State) (e : Event) :
  exists turns shown,
    chatHistory (step s e) = chatHistory s ++ map turn_message turns
    /\ chatMessages (dom (step s e)) = chatMessages (dom s) ++ shown
    /\ map turn_bubble turns `sublist_of` shown.
Proof.
  assert (exists turns shown,
            chatHistory s = chatHistory s ++ map turn_message turns
            /\ chatMessages (dom s) = chatMessages (dom s) ++ shown
            /\ map turn_bubble turns `sublist_of` shown) as Hsame.
  { exists [], []. rewrite !app_nil_r. auto. }
  destruct e as [| | |data|text|t]; cbn [step].
  - exact Hsame.
  - exact Hsame.
  - unfold onTimer. destruct (timers s); exact Hsame.
  - unfold onMessage, receive.
    destruct (JSON_parse data) as [payload|]; simpl; [|exact Hsame].
    destruct (get payload (str "response")) as [[r|]|]; simpl;
      try exact Hsame.
    destruct (truthy r); simpl; [|exact Hsame].
    unfold addMessageToChat.
    destruct (to_string_throws r); simpl; [exact Hsame|].
    exists [(str "assistant", r)],
           [bubble (str "assistant") r]. auto.
  - exact Hsame.
  - unfold sendMessage.
    destruct (streq _ _ || _ || _); [exact Hsame|].
    destruct t; simpl.
    + exists [(str "user", VStr (trim (userInput_value (dom s))))],
             [bubble (str "user") (VStr (trim (userInput_value (dom s))));
              bubble (str "assistant") (VStr apology)].
      rewrite <- app_assoc. split; [reflexivity|]. split; [reflexivity|].
      apply (sublist_inserts_r [_] [_] [_]). reflexivity.
    + exists [(str "user", VStr (trim (userInput_value (dom s))))],
             [bubble (str "user") (VStr (trim (userInput_value (dom s))))].
      auto.
Qed.

End Shown.

(** X11. Every turn the client adds to the history is shown in the chat log,
    in the same order: after any events, the turns added to the history are,
    as chat bubbles, a subsequence of the children added to the chat log, and
    no child of the chat log is removed. *)
Theorem history_is_shown (s : Client.State) (events : list Client.Event) :
  exists turns shown,
    Client.chatHistory (Client.run s events)
    = Client.chatHistory s ++ map turn_message turns
    /\ Client.chatMessages (Client.dom (Client.run s events))
       = Client.chatMessages (Client.dom s) ++ shown
    /\ map turn_bubble turns `sublist_of` shown.
Proof.
  revert s. induction events as [|e events IH]; intros s.
  { exists [], []. rewrite !app_nil_r. auto. }
  change (Client.run s (e :: events)) with (Client.run (Client.step s e) events).
  destruct (IH (Client.step s e)) as (turns2 & shown2 & Hh2 & Hl2 & Hs2).
  destruct (step_shown s e) as (turns1 & shown1 & Hh1 & Hl1 & Hs1).
  exists (turns1 ++ turns2), (shown1 ++ shown2).
  rewrite Hh2, Hl2, Hh1, Hl1, !map_app, <- !app_assoc.
  split; [reflexivity|]. split; [reflexivity|].
  apply sublist_app; assumption.
Qed.

(** ** The text of a user turn *)

Lemma trimStart_split (s : jsstring) :
  exists leading,
    s = leading ++ trimStart s
    /\ Forall (fun c => is_trim_space c = true) leading.
Proof.
  induction s as [|c s (leading & E & H)]; [exists []; auto|].
  cbn [trimStart]. destruct (is_trim_space c) eqn:Ec.
  - exists (c :: leading). split; [simpl; congruence | auto].
  - exists []. auto.
Qed.

Lemma trimStart_head (s r : jsstring) (c : N) :
  trimStart s = c :: r -> is_trim_space c = false.
Proof.
  induction s as [|d s IH]; [discriminate|].
  cbn [trimStart]. destruct (is_trim_space d) eqn:Ed; [exact IH|].
  intros H. inversion H; subst. exact Ed.
Qed.

Lemma trimStart_snoc (l : jsstring) (c : N) :
  is_trim_space c = false -> exists w, trimStart (l ++ [c]) = w ++ [c].
Proof.
  intros Hc. induction l as [|d l [w IH]]; cbn [app trimStart].
  - rewrite Hc. exists []. reflexivity.
  - destruct (is_trim_space d); [eauto|]. exists (d :: l). reflexivity.
Qed.

(** [trim] removes white space at both ends and nothing else. *)
Lemma trim_split (s : jsstring) :
  exists leading trailing,
    s = leading ++ trim s ++ trailing
    /\ Forall (fun c => is_trim_space c = true) leading
    /\ Forall (fun c => is_trim_space c = true) trailing.
Proof.
  destruct (trimStart_split s) as (leading & E1 & H1).
  destruct (trimStart_split (rev (trimStart s))) as (back & E2 & H2).
  exists leading, (rev back). split; [|split; [exact H1|]].
  - unfold trim. rewrite <- rev_app_distr, <- E2, rev_involutive. exact E1.
  - apply Forall_rev, H2.
Qed.

Lemma trim_trimmed (s : jsstring) : trimmed (trim s).
Proof.
  split.
  - intros c r E. unfold trim in E.
    destruct (trimStart s) as [|c0 u] eqn:Eu; [discriminate E|].
    pose proof (trimStart_head _ _ _ Eu) as Hc0.
    cbn [rev] in E.
    destruct (trimStart_snoc (rev u) c0 Hc0) as [w Ew].
    rewrite Ew, rev_app_distr in E. inversion E; subst. exact Hc0.
  - intros c r E. unfold trim in E.
    apply (f_equal (@rev N)) in E.
    rewrite rev_involutive, rev_app_distr in E.
    apply (trimStart_head _ _ _ E).
Qed.

(** X12. The user turn a send records is the input without the white space
    at its ends: the input is white space, the text of the turn, white space;
    the text is not empty and neither starts nor ends with white space.
    This is so whether [socket.send] throws or not, and the input field is
    empty afterwards. *)
Theorem user_turn_is_trimmed (t : bool) (s : Client.State) :
  may_send s ->
  exists text leading trailing,
    Client.chatHistory (Client.sendMessage t s)
    = Client.chatHistory s ++ [Client.chat_message (str "user") (VStr text)]
    /\ Client.userInput_value (Client.dom s) = leading ++ text ++ trailing
    /\ Forall (fun c => is_trim_space c = true) leading
    /\ Forall (fun c => is_trim_space c = true) trailing
    /\ text <> []
    /\ trimmed text
    /\ Client.userInput_value (Client.dom (Client.sendMessage t s)) = [].
Proof.
  intros H.
  destruct (trim_split (Client.userInput_value (Client.dom s)))
    as (leading & trailing & E & Hl & Ht).
  exists (trim (Client.userInput_value (Client.dom s))), leading, trailing.
  split; [|split; [exact E|split; [exact Hl|split; [exact Ht|]]]].
  - destruct t.
    + apply (sendMessage_thrown s H).
    + apply (sendMessage_sent s H).
  - split; [apply H|]. split; [apply trim_trimmed|].
    unfold Client.sendMessage. rewrite (may_send_guard s H).
    destruct t; reflexivity.
Qed.

Lemma user_turn_is_trimmed_witness :
  exists text leading trailing,
    Client.chatHistory (Client.sendMessage false Stub.ready_hi)
    = Client.chatHistory Stub.ready_hi
      ++ [Client.chat_message (str "user") (VStr text)]
    /\ Client.userInput_value (Client.dom Stub.ready_hi)
       = leading ++ text ++ trailing
    /\ Forall (fun c => is_trim_space c = true) leading
    /\ Forall (fun c => is_trim_space c = true) trailing
    /\ text <> []
    /\ trimmed text
    /\ Client.userInput_value
         (Client.dom (Client.sendMessage false Stub.ready_hi)) = [].
Proof.
  apply (user_turn_is_trimmed false Stub.ready_hi ready_hi_may_send).
Defined.

(** ** Keys and clicks *)

Lemma run_app (s : Client.State) (events more : list Client.Event) :
  Client.run s (events ++ more) = Client.run (Client.run s events) more.
Proof. apply fold_left_app. Qed.

Lemma act_events (s : Client.State) (a : Controls.Action) :
  Controls.act s a = Client.run s (events_of a).
Proof.
  destruct a as [e|key shiftKey send_throws|send_throws]; try reflexivity.
  unfold Controls.act, Controls.onKeydown, events_of.
  destruct (streq key (str "Enter") && negb shiftKey); reflexivity.
Qed.

Lemma perform_events (actions : list Controls.Action) (s : Client.State) :
  Controls.perform s actions = Client.run s (flat_map events_of actions).
Proof.
  revert s. induction actions as [|a actions IH]; intros s; [reflexivity|].
  change (Controls.perform s (a :: actions))
    with (Controls.perform (Controls.act s a) actions).
  change (flat_map events_of (a :: actions))
    with (events_of a ++ flat_map events_of actions).
  rewrite IH, act_events, run_app. reflexivity.
Qed.

(** X13. Keys and clicks reach the socket through [sendMessage] only. A key
    other than Enter, and Enter with Shift, change nothing and keep their
    default action; Enter without Shift is prevented and is one call of
    [sendMessage]. So the guard holds for them: while a send is in flight,
    no sequence of key presses, clicks and other events without an incoming
    frame hands a frame to the socket; and after any such sequence on a
    loaded page every frame sent still starts with the greeting. *)
Theorem keys_and_clicks_are_guarded (s : Client.State)
  (actions : list Controls.Action) :
  (forall key shiftKey t,
     key <> str "Enter" \/ shiftKey = true ->
     Controls.onKeydown key shiftKey t s = (s, false))
  /\ (forall t,
        Controls.onKeydown (str "Enter") false t s
        = (Client.sendMessage t s, true))
  /\ (Client.isProcessing s = true ->
      Forall (fun a => forall data,
                a <> Controls.Happens (Client.SocketMessage data)) actions ->
      Client.outbox (Controls.perform s actions) = Client.outbox s)
  /\ forall page,
       Forall greeted_frame
         (Client.outbox (Controls.perform (Client.load page) actions)).
Proof.
  split; [|split; [|split]].
  - intros key shiftKey t [Hkey | ->]; unfold Controls.onKeydown.
    + apply streq_neq in Hkey. rewrite Hkey. reflexivity.
    + rewrite andb_false_r. reflexivity.
  - intros t. reflexivity.
  - intros Hp Hactions. rewrite perform_events.
    apply run_processing; [exact Hp|].
    clear Hp. induction Hactions as [|a actions Ha _ IH]; [constructor|].
    change (flat_map events_of (a :: actions))
      with (events_of a ++ flat_map events_of actions).
    apply Forall_app. split; [|exact IH].
    destruct a as [e|key shiftKey t|t]; cbn [events_of].
    + repeat constructor. intros data ->. apply (Ha data). reflexivity.
    + destruct (streq key (str "Enter") && negb shiftKey);
        repeat constructor; discriminate.
    + repeat constructor. discriminate.
  - intros page. rewrite perform_events.
    apply (run_well_formed _ _ (load_well_formed page)).
Qed.

Lemma keys_and_clicks_are_guarded_witness :
  Client.outbox
    (Controls.perform (Client.sendMessage false Stub.ready_hi)
       [Controls.Happens (Client.UserInput (str "again"));
        Controls.Keydown (str "Enter") false false;
        Controls.Click false])
  = Client.outbox (Client.sendMessage false Stub.ready_hi).
Proof.
  apply (proj1 (proj2 (proj2
    (keys_and_clicks_are_guarded (Client.sendMessage false Stub.ready_hi)
       [Controls.Happens (Client.UserInput (str "again"));
        Controls.Keydown (str "Enter") false false;
        Controls.Click false]))) eq_refl).
  repeat constructor; discriminate.
Defined.

(** ** Reading back the frames of the client *)

Lemma parse_members_step (fuel : nat) (k rest : jsstring) :
  parse_members (S fuel) (quote k ++ ch ":" :: rest)
  = parsed_bind (parse_value fuel rest) (fun v r3 =>
      match skip_ws r3 with
      | c :: r4 =>
          if (c =? ch ",")%N then
            parsed_bind (parse_members fuel r4)
              (fun ms rest => Parsed ((k, v) :: ms) rest)
          else if (c =? ch "}")%N then Parsed [(k, v)] r4
          else Malformed
      | [] => Malformed
      end).
Proof.
  unfold quote. cbn [app]. rewrite <- app_assoc. cbn [app parse_members].
  change (skip_ws (dquote :: ?x)) with (dquote :: x).
  change (dquote =? dquote)%N with true. cbv iota.
  rewrite string_chars_quote_chars.
  change (skip_ws (ch ":" :: ?x)) with (ch ":" :: x).
  change (ch ":" =? ch ":")%N with true. cbv iota. reflexivity.
Qed.

Lemma parse_value_object_key (fuel : nat) (k s : jsstring) :
  parse_value (S fuel) (ch "{" :: quote k ++ s)
  = parsed_bind (parse_members fuel (quote k ++ s))
      (fun ms rest => Parsed (object_of ms) rest).
Proof. reflexivity. Qed.

Lemma JSON_stringify_turn (role text rest : jsstring) :
  JSON_stringify (Client.chat_message role (VStr text)) ++ rest
  = ch "{" :: quote (str "role") ++ ch ":" :: quote role
    ++ ch "," :: quote (str "content") ++ ch ":" :: quote text
    ++ ch "}" :: rest.
Proof.
  unfold Client.chat_message. cbn [JSON_stringify map join_comma fst snd app].
  repeat (rewrite <- app_assoc; cbn [app]). reflexivity.
Qed.

Lemma parse_value_turn (fuel : nat) (role text rest : jsstring) :
  parse_value (S (S (S (S fuel))))
    (JSON_stringify (Client.chat_message role (VStr text)) ++ rest)
  = Parsed (Client.chat_message role (VStr text)) rest.
Proof.
  rewrite JSON_stringify_turn, parse_value_object_key.
  rewrite parse_members_step, parse_value_quote.
  cbn [parsed_bind].
  change (skip_ws (ch "," :: ?x)) with (ch "," :: x).
  change (ch "," =? ch ",")%N with true. cbv iota.
  rewrite parse_members_step, parse_value_quote.
  cbn [parsed_bind].
  change (skip_ws (ch "}" :: ?x)) with (ch "}" :: x).
  change (ch "}" =? ch ",")%N with false.
  change (ch "}" =? ch "}")%N with true. cbv iota.
  reflexivity.
Qed.

Lemma parse_value_turn_fuel (fuel : nat) (role text rest : jsstring) :
  4 <= fuel ->
  parse_value fuel
    (JSON_stringify (Client.chat_message role (VStr text)) ++ rest)
  = Parsed (Client.chat_message role (VStr text)) rest.
Proof.
  intros H. destruct fuel as [|[|[|[|fuel]]]]; try lia. apply parse_value_turn.
Qed.

Lemma parse_elements_turns (turns : list value) (k : nat) (rest : jsstring) :
  Forall text_turn turns -> turns <> [] ->
  parse_elements (length turns + 4 + k)
    (join_comma (map JSON_stringify turns) ++ ch "]" :: rest)
  = Parsed turns rest.
Proof.
  intros Hturns. revert k.
  induction Hturns as [|t ts (role & text & -> & _) Hts IH]; intros k Hne;
    [contradiction|].
  change (length (Client.chat_message role (VStr text) :: ts) + 4 + k)
    with (S (length ts + 4 + k)).
  cbn [parse_elements]. destruct ts as [|t' ts'].
  - cbn [map join_comma].
    rewrite parse_value_turn_fuel by (simpl; lia). cbn [parsed_bind].
    change (skip_ws (ch "]" :: ?x)) with (ch "]" :: x).
    change (ch "]" =? ch ",")%N with false.
    change (ch "]" =? ch "]")%N with true. cbv iota. reflexivity.
  - change (join_comma (map JSON_stringify
              (Client.chat_message role (VStr text) :: t' :: ts')))
      with (JSON_stringify (Client.chat_message role (VStr text))
            ++ ch "," :: join_comma (map JSON_stringify (t' :: ts'))).
    rewrite <- app_assoc. cbn [app].
    rewrite parse_value_turn_fuel by (simpl; lia). cbn [parsed_bind].
    change (skip_ws (ch "," :: ?x)) with (ch "," :: x).
    change (ch "," =? ch ",")%N with true. cbv iota.
    rewrite IH by discriminate. reflexivity.
Qed.

Lemma parse_value_array_empty (fuel : nat) (rest : jsstring) :
  parse_value (S fuel) (ch "[" :: ch "]" :: rest) = Parsed (VArr []) rest.
Proof. reflexivity. Qed.

Lemma parse_value_array_object (fuel : nat) (s : jsstring) :
  parse_value (S fuel) (ch "[" :: ch "{" :: s)
  = parsed_bind (parse_elements fuel (ch "{" :: s))
      (fun vs rest => Parsed (VArr vs) rest).
Proof. reflexivity. Qed.

Lemma join_turns_head (t : value) (ts : list value) :
  text_turn t ->
  exists tail, join_comma (map JSON_stringify (t :: ts)) = ch "{" :: tail.
Proof.
  intros (role & text & -> & _). destruct ts; cbn [map join_comma];
    rewrite JSON_stringify_turn || rewrite <- (app_nil_r (JSON_stringify _)),
      JSON_stringify_turn; eauto.
Qed.

Lemma join_turns_length (turns : list value) :
  Forall text_turn turns ->
  length turns <= length (join_comma (map JSON_stringify turns)).
Proof.
  induction 1 as [|t ts (role & text & -> & _) _ IH]; [reflexivity|].
  destruct ts as [|t' ts'].
  - cbn [map join_comma]. rewrite <- (app_nil_r (JSON_stringify _)).
    rewrite JSON_stringify_turn. simpl. lia.
  - change (join_comma (map JSON_stringify
              (Client.chat_message role (VStr text) :: t' :: ts')))
      with (JSON_stringify (Client.chat_message role (VStr text))
            ++ ch "," :: join_comma (map JSON_stringify (t' :: ts'))).
    rewrite length_app. simpl in *. lia.
Qed.

Lemma parse_value_turns (turns : list value) (k : nat) (rest : jsstring) :
  Forall text_turn turns ->
  parse_value (S (length turns + 4 + k))
    (JSON_stringify (VArr turns) ++ rest)
  = Parsed (VArr turns) rest.
Proof.
  intros Hturns. cbn [JSON_stringify app]. rewrite <- app_assoc. cbn [app].
  destruct turns as [|t ts]; [reflexivity|].
  destruct (join_turns_head t ts (Forall_inv Hturns)) as [tail Etail].
  pose proof (parse_elements_turns (t :: ts) k rest Hturns ltac:(discriminate))
    as Hparse.
  rewrite Etail in *. cbn [app] in *.
  rewrite parse_value_array_object, Hparse. reflexivity.
Qed.

(** The Worker reads a frame of the client back as the history it was
    written from, when every turn holds a string. *)
Lemma JSON_parse_messages_frame (turns : list value) :
  Forall text_turn turns ->
  JSON_parse (messages_frame turns) = Ok (VObj [(str "messages", VArr turns)]).
Proof.
  intros Hturns. unfold JSON_parse, messages_frame.
  set (text := JSON_stringify (VObj [(str "messages", VArr turns)])).
  assert (text = ch "{" :: quote (str "messages") ++ ch ":"
                 :: JSON_stringify (VArr turns) ++ [ch "}"]) as Etext.
  { subst text. cbn [JSON_stringify map join_comma fst snd app].
    repeat (rewrite <- app_assoc; cbn [app]). reflexivity. }
  assert (exists k, 2 * length text + 1 = S (S (S (length turns + 4 + k))))
    as [k ->].
  { exists (2 * length text + 1 - (length turns + 7)).
    pose proof (join_turns_length turns Hturns) as Hlen.
    assert (length turns + 3 <= length text); [|lia].
    rewrite Etext. cbn [JSON_stringify length].
    repeat (rewrite length_app; cbn [length]). lia. }
  rewrite Etext, parse_value_object_key, parse_members_step.
  rewrite parse_value_turns by exact Hturns. reflexivity.
Qed.

(** ** The client and the Worker in conversation *)

Lemma text_turns_no_system (turns : list value) :
  Forall text_turn turns ->
  Forall is_message turns /\ has_system turns = false.
Proof.
  induction 1 as [|t ts (role & text & -> & Hrole) _ [IH1 IH2]];
    [split; [constructor | reflexivity]|].
  split; [constructor; [eexists; reflexivity | exact IH1]|].
  unfold has_system. cbn [existsb]. fold (has_system ts). rewrite IH2.
  destruct Hrole as [-> | ->]; reflexivity.
Qed.

(** What the Worker does with a frame of the client. *)
Lemma worker_reads_frame (env : Worker.Env) (turns : list value)
  (server : Worker.ServerSocket) :
  Forall text_turn turns ->
  Worker.onMessage env (Worker.TextData (messages_frame turns)) server
  = answer env (Worker.system_message :: turns) server.
Proof.
  intros Hturns. destruct (text_turns_no_system turns Hturns) as [Hm Hs].
  unfold Worker.onMessage, answer. f_equal.
  apply (relay_forwards env _ server
           (VObj [(str "messages", VArr turns)]) (VArr turns)).
  - apply JSON_parse_messages_frame, Hturns.
  - reflexivity.
  - rewrite add_system_prompt_values by (apply message_not_null, Hm).
    rewrite Hs. reflexivity.
Qed.

Lemma step_conversing (s : Client.State) (e : Client.Event) :
  from_worker e -> conversing s -> conversing (Client.step s e).
Proof.
  intros He [[rest Hg] Ht Hf].
  assert (forall added s',
            Client.chatHistory s' = Client.chatHistory s ++ added ->
            Forall text_turn added ->
            Client.outbox s' = Client.outbox s
            \/ Client.outbox s'
               = Client.outbox s ++ [messages_frame (Client.chatHistory s')] ->
            conversing s') as Hgrow.
  { intros added s' Hh Ha Ho. split.
    - exists (rest ++ added). rewrite Hh, Hg. reflexivity.
    - rewrite Hh. apply Forall_app. auto.
    - destruct Ho as [-> | ->]; [exact Hf|].
      apply Forall_app. split; [exact Hf|]. repeat constructor.
      exists (rest ++ added). rewrite Hh, Hg. split; [reflexivity|].
      change (Client.greeting :: rest ++ added)
        with ((Client.greeting :: rest) ++ added).
      rewrite <- Hg. apply Forall_app. auto. }
  assert (forall s',
            Client.chatHistory s' = Client.chatHistory s ->
            Client.outbox s' = Client.outbox s -> conversing s') as Hsame.
  { intros s' Hh Ho. apply (Hgrow [] s'); [rewrite app_nil_r| |]; auto. }
  destruct e as [| | |data|text|t]; cbn [Client.step].
  - apply Hsame; reflexivity.
  - apply Hsame; reflexivity.
  - unfold Client.onTimer. destruct (Client.timers s); apply Hsame; reflexivity.
  - destruct (He data eq_refl) as [reply ->].
    destruct (onMessage_keeps (Worker.response_frame reply) s)
      as (_ & _ & _ & Ho).
    destruct (reply_reaches_client reply s) as (Hfull & Hempty & _).
    assert (reply = [] \/ reply <> []) as [E|E]
      by (destruct reply; [left; reflexivity | right; discriminate]).
    + apply Hsame; auto.
    + apply (Hgrow [Client.chat_message (str "assistant") (VStr reply)]);
        [exact (Hfull E)| |auto].
      repeat constructor. eexists _, _. eauto.
  - apply Hsame; reflexivity.
  - unfold Client.sendMessage.
    destruct (streq _ _ || _ || _); [apply Hsame; reflexivity|].
    assert (Forall text_turn
              [Client.chat_message (str "user")
                 (VStr (trim (Client.userInput_value (Client.dom s))))])
      by (repeat constructor; eexists _, _; eauto).
    destruct t; eapply Hgrow; simpl; eauto.
Qed.

Lemma run_conversing (events : list Client.Event) (s : Client.State) :
  Forall from_worker events -> conversing s ->
  conversing (Client.run s events).
Proof.
  intros Hev. revert s.
  induction Hev as [|e events He _ IH]; intros s H; [exact H|].
  apply (IH (Client.step s e)), step_conversing; assumption.
Qed.

Lemma load_conversing (page : Client.Dom) : conversing (Client.load page).
Proof.
  split; simpl.
  - exists []. reflexivity.
  - repeat constructor. eexists _, _. split; [reflexivity|auto].
  - constructor.
Qed.

(** X14. The Worker accepts every frame of a client that has only heard
    from it: after any events on a loaded page in which the incoming frames
    are frames of the Worker, each frame handed to the socket is
    [{ messages }] for a history that starts with the greeting, and the
    Worker reads that history back, finds no system entry, and calls the
    inference API with the system message followed by the whole history in
    its order. The only apology such a client gets is for a failed inference
    call. *)
Theorem client_frames_are_accepted (page : Client.Dom)
  (events : list Client.Event) :
  Forall from_worker events ->
  Forall (fun frame =>
            exists rest,
              frame = messages_frame (Client.greeting :: rest)
              /\ forall env server,
                   Worker.onMessage env (Worker.TextData frame) server
                   = answer env
                       (Worker.system_message :: Client.greeting :: rest)
                       server)
    (Client.outbox (Client.run (Client.load page) events)).
Proof.
  intros Hev.
  destruct (run_conversing events _ Hev (load_conversing page)) as [_ _ Hf].
  eapply Forall_impl; [exact Hf|].
  intros frame (rest & -> & Hturns). exists rest. split; [reflexivity|].
  intros env server. apply worker_reads_frame, Hturns.
Qed.

Lemma client_frames_are_accepted_witness :
  Forall (fun frame =>
            exists rest,
              frame = messages_frame (Client.greeting :: rest)
              /\ forall env server,
                   Worker.onMessage env (Worker.TextData frame) server
                   = answer env
                       (Worker.system_message :: Client.greeting :: rest)
                       server)
    (Client.outbox
       (Client.run (Client.load Stub.blank_page)
          [Client.SocketOpen; Client.UserInput (str "hi");
           Client.SendMessage false;
           Client.SocketMessage (Worker.response_frame (str "hello"));
           Client.UserInput (str "more"); Client.SendMessage false])).
Proof.
  apply (client_frames_are_accepted Stub.blank_page
           [Client.SocketOpen; Client.UserInput (str "hi");
            Client.SendMessage false;
            Client.SocketMessage (Worker.response_frame (str "hello"));
            Client.UserInput (str "more"); Client.SendMessage false]).
  repeat constructor; intros data H; inversion H; eexists; reflexivity.
Defined.

Lemma reply_frame_of_turns (env : Worker.Env) (turns : list value) :
  Forall text_turn turns ->
  reply_frame env (Worker.TextData (messages_frame turns))
  = Worker.response_frame
      (reply_text
         (Worker.AI_run env Worker.MODEL_ID
            (Worker.system_message :: turns) 1024)).
Proof.
  intros Hturns.
  pose proof (worker_reads_frame env turns Stub.fresh_socket Hturns) as H.
  rewrite onMessage_sends_one in H. unfold answer in H.
  destruct (Worker.AI_run env Worker.MODEL_ID
              (Worker.system_message :: turns) 1024);
    simpl in H; inversion H as [E]; exact E.
Qed.

(** X15. One turn of the conversation, end to end. From a state that may
    send and whose history holds text turns: the send hands the socket one
    frame with the history and the new user turn; the Worker answers it with
    [{ response: text }], where [text] is extracted from what the inference
    API returns for the system message followed by that history, or is the
    apology when the call throws; and that frame releases the client and,
    when [text] is not empty, leaves the history extended by the user turn
    and the assistant turn [text], ready for the next send. *)
Theorem conversation_turn (env : Worker.Env) (s : Client.State) :
  may_send s ->
  Forall text_turn (Client.chatHistory s) ->
  let history := Client.chatHistory s ++ [user_turn s] in
  let text :=
    reply_text
      (Worker.AI_run env Worker.MODEL_ID
         (Worker.system_message :: history) 1024) in
  let s1 := Client.sendMessage false s in
  let s2 :=
    Client.onMessage
      (reply_frame env (Worker.TextData (messages_frame history))) s1 in
  Client.outbox s1 = Client.outbox s ++ [messages_frame history]
  /\ reply_frame env (Worker.TextData (messages_frame history))
     = Worker.response_frame text
  /\ (text <> [] ->
      Client.chatHistory s2
      = Client.chatHistory s
        ++ [user_turn s; Client.chat_message (str "assistant") (VStr text)])
  /\ (text = [] -> Client.chatHistory s2 = history)
  /\ Client.isProcessing s2 = false
  /\ Client.socketReady s2 = true
  /\ Client.userInput_disabled (Client.dom s2) = false
  /\ Client.sendButton_disabled (Client.dom s2) = false
  /\ Client.typingIndicator_visible (Client.dom s2) = false.
Proof.
  intros Hsend Hturns history text s1 s2.
  destruct (sendMessage_sent s Hsend) as (Hh & Ho & _ & Hr).
  fold s1 in Hh, Ho, Hr. fold (user_turn s) in Hh. fold history in Hh, Ho.
  assert (Forall text_turn history) as Hhistory.
  { apply Forall_app. split; [exact Hturns|]. repeat constructor.
    eexists _, _. split; [reflexivity|auto]. }
  pose proof (reply_frame_of_turns env history Hhistory) as Hreply.
  fold text in Hreply.
  destruct (reply_reaches_client text s1) as (Hfull & Hempty & _).
  destruct (onMessage_keeps (Worker.response_frame text) s1)
    as (Hready & _).
  subst s2. rewrite Hreply.
  split; [exact Ho|]. split; [reflexivity|]. split; [|split].
  - intros Htext. rewrite (Hfull Htext), Hh. subst history.
    rewrite <- app_assoc. reflexivity.
  - intros Htext. rewrite (Hempty Htext). exact Hh.
  - split; [reflexivity|]. split; [congruence|]. repeat split.
Qed.

Lemma conversation_turn_witness :
  Client.chatHistory
    (Client.onMessage
       (reply_frame (Stub.env (Ok (Some (VStr (str "hello")))))
          (Worker.TextData
             (messages_frame
                (Client.chatHistory Stub.ready_hi ++ [user_turn Stub.ready_hi]))))
       (Client.sendMessage false Stub.ready_hi))
  = [Client.greeting; Client.chat_message (str "user") (VStr (str "hi"));
     Client.chat_message (str "assistant") (VStr (str "hello"))].
Proof.
  apply (proj1 (proj2 (proj2
    (conversation_turn (Stub.env (Ok (Some (VStr (str "hello")))))
       Stub.ready_hi ready_hi_may_send
       ltac:(repeat constructor; eexists _, _; split; [reflexivity|auto]))))).
  discriminate.
Defined.
